(** * TitmouseVolumeNet: a shallow embedding of lib/model/TitmouseVolumeNet.py

    The network object is a record of the attributes the methods read and
    write; a method is a function from the object to an outcome (a returned
    value or a raised exception) and the object as the method left it, since
    a Python exception keeps the assignments made before it.

    Tensors are nested lists in row-major order.  Their elements are the
    values of a floating-point dtype as far as the methods tell them apart:
    a real number, an infinity or NaN, with NaN absorbing in arithmetic and
    failing every comparison.  Rounding and the sign of zero are not
    modelled.  Tensor arguments are taken to have the shapes the docstrings
    give; on other shapes the list operations below truncate where torch
    would refuse to broadcast or to view.

    The sub-networks (HGFilter, VolumeEncoder, the layers of
    SurfaceClassifier, DepthNormalizer), the geometry helpers of BasePIFuNet
    (projection, index), torch's grid_sample, scipy's cKDTree and the loss
    come from other modules; they are the fields of the record [components],
    of which the methods take one value. *)

From Stdlib Require Import String Reals Lra Lia Bool Arith List.
Import ListNotations.
Local Open Scope R_scope.

(** ** Floating-point values *)

Inductive scalar : Type :=
| Num (r : R)
| PInf
| NInf
| NaN.

Module Float.

(** The product of a number and an infinity, [positive] telling which. *)
Definition mul_inf (r : R) (positive : bool) : scalar :=
  if Rlt_dec 0 r then (if positive then PInf else NInf)
  else if Rlt_dec r 0 then (if positive then NInf else PInf)
  else NaN.

(** [a * b]: NaN absorbs, and zero times an infinity is NaN. *)
Definition mul (a b : scalar) : scalar :=
  match a, b with
  | NaN, _ | _, NaN => NaN
  | Num x, Num y => Num (x * y)
  | Num x, PInf | PInf, Num x => mul_inf x true
  | Num x, NInf | NInf, Num x => mul_inf x false
  | PInf, PInf | NInf, NInf => PInf
  | PInf, NInf | NInf, PInf => NInf
  end.

(** [a <= b]: false as soon as one side is NaN. *)
Definition le (a b : scalar) : bool :=
  match a, b with
  | NaN, _ | _, NaN => false
  | NInf, _ => true
  | _, PInf => true
  | Num x, Num y => if Rle_dec x y then true else false
  | _, _ => false
  end.

(** The number a value stands for, 0 for the values that are none. *)
Definition value (a : scalar) : R :=
  match a with
  | Num r => r
  | _ => 0
  end.

End Float.

(** ** Tensors *)

Definition tensor1 := list scalar.
Definition tensor2 := list tensor1.
Definition tensor3 := list tensor2.
Definition tensor4 := list tensor3.
Definition tensor5 := list tensor4.

Module Tensor.

(** Elementwise combination of two lists of the same length. *)
Fixpoint map2 {A B C : Type} (f : A -> B -> C) (l : list A) (l' : list B) : list C :=
  match l, l' with
  | a :: t, b :: t' => f a b :: map2 f t t'
  | _, _ => []
  end.

Definition map3d (f : scalar -> scalar) (t : tensor3) : tensor3 := map (map (map f)) t.

(** [t.new_zeros(n)] for one row. *)
Definition new_zeros (n : nat) : tensor1 := repeat (Num 0) n.

(** [row[i] = v] for an index in range. *)
Fixpoint set_item (i : nat) (v : scalar) (row : tensor1) : tensor1 :=
  match row, i with
  | [], _ => []
  | _ :: t, O => v :: t
  | x :: t, S j => x :: set_item j v t
  end.

(** [row[idx] = v] with a list of indices [idx]. *)
Definition index_put (row : tensor1) (idx : list nat) (v : scalar) : tensor1 :=
  fold_left (fun r i => set_item i v r) idx row.

(** Transposition of a matrix given as the list of its rows. *)
Definition transpose (t : tensor2) : tensor2 :=
  match t with
  | [] => []
  | r :: _ => map (fun n => map (fun row => nth n row (Num 0)) t) (seq 0 (length r))
  end.

(** [t.transpose(1, 2)] on a [B, C, N] tensor. *)
Definition transpose12 (t : tensor3) : tensor3 := map transpose t.

(** [t[:, a:b, :]]. *)
Definition slice1 (a b : nat) (t : tensor3) : tensor3 :=
  map (fun chans => firstn (b - a) (skipn a chans)) t.

(** [t[:, c]] on a [B, C, N] tensor. *)
Definition select1 (c : nat) (t : tensor3) : tensor2 :=
  map (fun chans => nth c chans []) t.

(** [t.size()[1]]. *)
Definition size1 {A : Type} (t : list (list A)) : nat :=
  match t with
  | [] => O
  | r :: _ => length r
  end.

(** A contiguous buffer read as a [d0, d1, d2] tensor. *)
Definition reshape3 (d0 d1 d2 : nat) (flat : list scalar) : tensor3 :=
  map (fun i =>
    map (fun j =>
      map (fun k => nth ((i * d1 + j) * d2 + k)%nat flat (Num 0)) (seq 0 d2))
      (seq 0 d1))
    (seq 0 d0).

Definition flatten5 (t : tensor5) : list scalar :=
  concat (concat (concat (concat t))).

(** [t.view([d0, -1, d2])] on a 5-dimensional tensor whose number of
    elements is a positive multiple of [d0 * d2]; torch refuses the view of
    other tensors, among them those without elements. *)
Definition view_m1 (d0 d2 : nat) (t : tensor5) : tensor3 :=
  let flat := flatten5 t in
  reshape3 d0 (length flat / (d0 * d2)) d2 flat.

(** [occ.view(B, r, r, r)] on a [B, r^3] tensor. *)
Definition view_cube (r : nat) (occ : tensor2) : tensor4 :=
  map (fun row => reshape3 r r r row) occ.

(** [t.unsqueeze(1)] on a 4-dimensional tensor. *)
Definition unsqueeze1 (t : tensor4) : tensor5 := map (fun v => [v]) t.

(** [torch.cat(ts, 1)]: the channels of the tensors, one after the other,
    batch element by batch element. *)
Definition cat1 (ts : list tensor3) : tensor3 :=
  match ts with
  | [] => []
  | t :: rest => fold_left (map2 (@app tensor1)) rest t
  end.

(** [t >= c] and [t <= c] for a scalar [c], and [&] on boolean tensors. *)
Definition ge_scalar (t : tensor2) (c : scalar) : list (list bool) :=
  map (map (fun x => Float.le c x)) t.
Definition le_scalar (t : tensor2) (c : scalar) : list (list bool) :=
  map (map (fun x => Float.le x c)) t.
Definition band (a b : list (list bool)) : list (list bool) :=
  map2 (map2 andb) a b.

(** [m.float()] on a boolean tensor. *)
Definition float (m : list (list bool)) : tensor2 :=
  map (map (fun b : bool => if b then Num 1 else Num 0)) m.

(** [m[:, None] * t] for [m] of shape [B, N] and [t] of shape [B, C, N]:
    the row of [m] is broadcast over the channels of [t]. *)
Definition mul_mask (m : tensor2) (t : tensor3) : tensor3 :=
  map2 (fun mrow chans => map (map2 Float.mul mrow) chans) m t.

(** [xyz.transpose(1, 2)[:, :, None, None, :]]. *)
Definition as_grid (t : tensor3) : tensor5 :=
  map (map (fun p => [[p]])) (transpose12 t).

End Tensor.

(** ** Python lists *)

Module Py.

(** [l[-1]]; [None] stands for the IndexError of an empty list. *)
Fixpoint last_item {A : Type} (l : list A) : option A :=
  match l with
  | [] => None
  | [a] => Some a
  | _ :: t => last_item t
  end.

(** [l[-k:]]: the last [k] items, the whole list when it has fewer, and the
    whole list when [k] is 0, because [-0] is [0]. *)
Definition slice_last {A : Type} (k : nat) (l : list A) : list A :=
  match k with
  | O => l
  | S _ => skipn (length l - k) l
  end.

End Py.

(** ** Outcomes of a method call *)

Inductive exn : Type :=
| AttributeError (attr : string)
| IndexError
| TypeError
| ValueError
| ZeroDivisionError.

Inductive outcome (A : Type) : Type :=
| Returns (a : A)
| Raises (e : exn).
Arguments Returns {A} a.
Arguments Raises {A} e.

(** A method of an object of type [S]. *)
Definition method (S A : Type) : Type := S -> outcome A * S.

Definition ret {S A : Type} (a : A) : method S A := fun s => (Returns a, s).

Definition raise {S A : Type} (e : exn) : method S A := fun s => (Raises e, s).

Definition bind {S A B : Type} (m : method S A) (k : A -> method S B) : method S B :=
  fun s =>
    match m s with
    | (Returns a, s') => k a s'
    | (Raises e, s') => (Raises e, s')
    end.

Definition get {S : Type} : method S S := fun s => (Returns s, s).

Definition modify {S : Type} (f : S -> S) : method S unit := fun s => (Returns tt, f s).

(** A Python value that may be missing becomes an exception when it is used. *)
Definition expect {S A : Type} (o : option A) (e : exn) : method S A :=
  match o with
  | Some a => ret a
  | None => raise e
  end.

Declare Scope method_scope.
Delimit Scope method_scope with method.
Notation "x <- m ;; k" := (bind m (fun x => k))
  (at level 61, m at next level, right associativity) : method_scope.
Notation "m ;; k" := (bind m (fun _ => k))
  (at level 61, right associativity) : method_scope.

(** ** An exhaustive nearest-point search

    A search that answers as a nearest-neighbour index is specified to: it
    goes through the stored points in order and keeps the first one at the
    least squared Euclidean distance.  It is the tree of the small instance
    below; the methods themselves take the answers of the tree from the
    field [kdtree_query] of [components]. *)

Module Exhaustive.

Definition dist2 (p q : list R) : R :=
  fold_right Rplus 0 (Tensor.map2 (fun a b => (a - b) * (a - b)) p q).

(** The search over the points not yet seen: [i] is the index of the next
    point, [best] the index of the nearest point so far, at distance [d]. *)
Fixpoint nearest_from (x : list R) (data : list (list R)) (i best : nat) (d : R) : nat :=
  match data with
  | [] => best
  | g :: rest =>
      if Rlt_dec (dist2 x g) d
      then nearest_from x rest (S i) i (dist2 x g)
      else nearest_from x rest (S i) best d
  end.

Definition nearest (data : list (list R)) (x : list R) : nat :=
  match data with
  | [] => O
  | g :: rest => nearest_from x rest 1 0 (dist2 x g)
  end.

(** The coordinates of a point, when all of them are numbers. *)
Fixpoint finite (p : tensor1) : option (list R) :=
  match p with
  | [] => Some []
  | Num r :: t =>
      match finite t with
      | Some l => Some (r :: l)
      | None => None
      end
  | _ :: _ => None
  end.

Fixpoint finite_points (data : tensor2) : option (list (list R)) :=
  match data with
  | [] => Some []
  | p :: t =>
      match finite p, finite_points t with
      | Some c, Some l => Some (c :: l)
      | _, _ => None
      end
  end.

(** The answer for one point; none when a coordinate is not a number. *)
Definition query (data : tensor2) (x : tensor1) : option nat :=
  match finite_points data, finite x with
  | Some d, Some c => Some (nearest d c)
  | _, _ => None
  end.

End Exhaustive.

(** ** The grid points

    Modelled from the spec: [create_grid_points_from_bounds] of lib/mesh_util
    is missing from the source.  The spec speaks of the [reso_grid^3] grid
    points spanning the cube from [bb_min] to [bb_max]: [res] evenly spaced
    coordinates on each axis, the points listed with the last axis varying
    fastest. *)

Definition linspace (a b : R) (n : nat) : tensor1 :=
  map (fun i => Num (a + INR i * ((b - a) / INR (n - 1)))) (seq 0 n).

Definition create_grid_points_from_bounds (minimun maximum : R) (res : nat) : tensor2 :=
  let x := linspace minimun maximum res in
  flat_map (fun X => flat_map (fun Y => map (fun Z => [X; Y; Z]) x) x) x.

(** ** nn.Sigmoid *)

Definition logistic (x : R) : R := 1 / (1 + exp (- x)).

(** The Sigmoid of a floating-point value: its limits at the infinities,
    NaN at NaN. *)
Definition Sigmoid (v : scalar) : scalar :=
  match v with
  | Num x => Num (logistic x)
  | PInf => Num 1
  | NInf => Num 0
  | NaN => NaN
  end.

(** [F.grid_sample]'s keyword arguments. *)
Inductive interpolation : Type := bilinear | nearest_mode | bicubic.
Inductive padding : Type := zeros | border | reflection.

(** ** The network *)

Module TitmouseVolumeNet.

Local Open Scope method_scope.

(** The fields of [opt] that the methods read. *)
Record options : Type := mkOptions {
  num_views : nat;
  feat_type : string;
  skip_hourglass : bool;
  reso_grid : nat
}.

(** The attributes that the methods assign.  [tmpx], [normx], [preds] and
    [labels] hold Python's [None] until a method assigns them. *)
Record net : Type := mkNet {
  opt : options;
  training : bool;
  im_feat_list : list tensor4;
  tmpx : option tensor4;
  normx : option tensor4;
  voxel_feat_list : list tensor5;
  intermediate_preds_list : list tensor3;
  preds : option tensor3;
  labels : option tensor3
}.

Definition set_im_feat_list (v : list tensor4) (self : net) : net :=
  mkNet (opt self) (training self) v (tmpx self) (normx self)
        (voxel_feat_list self) (intermediate_preds_list self) (preds self) (labels self).

Definition set_tmpx (v : option tensor4) (self : net) : net :=
  mkNet (opt self) (training self) (im_feat_list self) v (normx self)
        (voxel_feat_list self) (intermediate_preds_list self) (preds self) (labels self).

Definition set_normx (v : option tensor4) (self : net) : net :=
  mkNet (opt self) (training self) (im_feat_list self) (tmpx self) v
        (voxel_feat_list self) (intermediate_preds_list self) (preds self) (labels self).

Definition set_voxel_feat_list (v : list tensor5) (self : net) : net :=
  mkNet (opt self) (training self) (im_feat_list self) (tmpx self) (normx self)
        v (intermediate_preds_list self) (preds self) (labels self).

Definition set_intermediate_preds_list (v : list tensor3) (self : net) : net :=
  mkNet (opt self) (training self) (im_feat_list self) (tmpx self) (normx self)
        (voxel_feat_list self) v (preds self) (labels self).

Definition set_preds (v : option tensor3) (self : net) : net :=
  mkNet (opt self) (training self) (im_feat_list self) (tmpx self) (normx self)
        (voxel_feat_list self) (intermediate_preds_list self) v (labels self).

Definition set_labels (v : option tensor3) (self : net) : net :=
  mkNet (opt self) (training self) (im_feat_list self) (tmpx self) (normx self)
        (voxel_feat_list self) (intermediate_preds_list self) (preds self) v.

(** [self.grid_points], assigned once by [__init__] with [bb_min = -1.0] and
    [bb_max = 1.0]; [self.kdtree] is the tree over these points. *)
Definition grid_points (self : net) : tensor2 :=
  create_grid_points_from_bounds (-1) 1 (reso_grid (opt self)).

(** [_, idx = kdtree.query(points)]: the answers of the tree for the points,
    in their order; none when the tree refuses one of them, as scipy's does
    with ValueError for a point with a coordinate that is infinite or NaN. *)
Fixpoint tree_answers (tree : tensor1 -> option nat) (points : tensor2)
  : option (list nat) :=
  match points with
  | [] => Some []
  | p :: rest =>
      match tree p, tree_answers tree rest with
      | Some i, Some idx => Some (i :: idx)
      | _, _ => None
      end
  end.

(** The occupancy row of one batch element: [kdtree.query] on its points,
    then [occupancies[b, idx] = 1] on a row of zeros.  An index that is not
    a position of the row raises IndexError. *)
Definition occupancy_row (kdtree : tensor2 -> tensor1 -> option nat)
    (grid : tensor2) (points : tensor2) : outcome tensor1 :=
  match tree_answers (kdtree grid) points with
  | None => Raises ValueError
  | Some idx =>
      if forallb (fun i => i <? length grid)%nat idx
      then Returns (Tensor.index_put (Tensor.new_zeros (length grid)) idx (Num 1))
      else Raises IndexError
  end.

(** The loop [for b in range(pcd.size(0))] of [pcd_filter]. *)
Fixpoint occupancies_of (kdtree : tensor2 -> tensor1 -> option nat)
    (grid : tensor2) (kp_pred : tensor3) : outcome tensor2 :=
  match kp_pred with
  | [] => Returns []
  | points :: rest =>
      match occupancy_row kdtree grid points with
      | Raises e => Raises e
      | Returns row =>
          match occupancies_of kdtree grid rest with
          | Raises e => Raises e
          | Returns rows => Returns (row :: rows)
          end
      end
  end.

Definition lift {A : Type} (o : outcome A) : method net A := fun self => (o, self).

(** The parts of the network that are built from other modules. *)
Record components : Type := mkComponents {
  (** [HGFilter.forward]: the feature stacks, [tmpx] and [normx]. *)
  image_filter : tensor4 -> list tensor4 * tensor4 * tensor4;
  (** [VolumeEncoder.forward]: the list of feature volumes. *)
  VolumeEncoder : tensor5 -> list tensor5;
  (** The layers of [SurfaceClassifier] that come before [last_op]. *)
  classifier_layers : tensor3 -> tensor3;
  (** [DepthNormalizer.forward(z, calibs)]. *)
  normalizer : tensor3 -> tensor3 -> tensor3;
  (** [BasePIFuNet.projection(points, calibs, transforms)]. *)
  projection : tensor3 -> tensor3 -> option tensor3 -> tensor3;
  (** [BasePIFuNet.index(feat, uv)]. *)
  index : tensor4 -> tensor3 -> tensor3;
  (** [F.grid_sample(input, grid, mode, padding_mode, align_corners)]. *)
  grid_sample : tensor5 -> tensor5 -> interpolation -> padding -> bool -> tensor5;
  (** [cKDTree(data).query(x)] for one point [x]: the index the tree answers
      with, or none when it raises ValueError. *)
  kdtree_query : tensor2 -> tensor1 -> option nat;
  (** The loss given to [__init__]. *)
  error_term : tensor3 -> tensor3 -> R
}.

Section Network.

Variable C : components.

(** Modelled from the spec: SurfaceClassifier is missing from the source.
    [__init__] builds it with [last_op = nn.Sigmoid()], and the classifier's
    last operation is that Sigmoid, applied to every element. *)
Definition surface_classifier (feature : tensor3) : tensor3 :=
  Tensor.map3d Sigmoid (classifier_layers C feature).

(** [self.volume_filter]: [__init__] assigns it only under
    [self.opt.feat_type == 'volume']. *)
Definition volume_filter (self : net) : option (tensor5 -> list tensor5) :=
  if String.eqb (feat_type (opt self)) "volume"%string then Some (VolumeEncoder C) else None.

(** The object [__init__] leaves: a new [nn.Module] is in training mode. *)
Definition init (o : options) : net :=
  mkNet o true [] None None [] [] None None.

Definition filter (images : tensor4) : method net unit :=
  let '(feats, tx, nx) := image_filter C images in
  modify (fun self => set_normx (Some nx) (set_tmpx (Some tx) (set_im_feat_list feats self))) ;;
  self <- get ;;
  if negb (training self)
  then
    f <- expect (Py.last_item (im_feat_list self)) IndexError ;;
    modify (set_im_feat_list [f])
  else ret tt.

Definition pcd_filter (pcd : tensor3) : method net unit :=
  self <- get ;;
  let kp_pred := Tensor.transpose12 pcd in
  occupancies <- lift (occupancies_of (kdtree_query C) (grid_points self) kp_pred) ;;
  let voxel_kp_pred := Tensor.view_cube (reso_grid (opt self)) occupancies in
  volume_filter <- expect (volume_filter self) (AttributeError "volume_filter"%string) ;;
  modify (set_voxel_feat_list (volume_filter (Tensor.unsqueeze1 voxel_kp_pred))) ;;
  self <- get ;;
  if negb (training self)
  then
    f <- expect (Py.last_item (voxel_feat_list self)) IndexError ;;
    modify (set_voxel_feat_list [f])
  else ret tt.

(** [in_img] of [query]. *)
Definition in_img_of (xy : tensor3) : list (list bool) :=
  Tensor.band
    (Tensor.band
       (Tensor.band (Tensor.ge_scalar (Tensor.select1 0 xy) (Num (-1)))
                    (Tensor.le_scalar (Tensor.select1 0 xy) (Num 1)))
       (Tensor.ge_scalar (Tensor.select1 1 xy) (Num (-1))))
    (Tensor.le_scalar (Tensor.select1 1 xy) (Num 1)).

(** The body of the loop of [query] for one pair of feature stacks.
    [tmpx_local_feature] is [None] when [opt.skip_hourglass] is off. *)
Definition query_pred (xy z : tensor3) (vgrid : tensor5) (batch_size point_num : nat)
    (in_img : list (list bool)) (tmpx_local_feature : option tensor3)
    (stacks : tensor4 * tensor5) : tensor3 :=
  let '(im_feat, voxel_feat) := stacks in
  let pt_feat_3D := grid_sample C voxel_feat vgrid bilinear border false in
  let pt_feat_3D := Tensor.view_m1 batch_size point_num pt_feat_3D in
  let point_local_feat_list := [index C im_feat xy; pt_feat_3D; z] in
  let point_local_feat_list :=
    match tmpx_local_feature with
    | Some f => point_local_feat_list ++ [f]
    | None => point_local_feat_list
    end in
  let point_local_feat := Tensor.cat1 point_local_feat_list in
  Tensor.mul_mask (Tensor.float in_img) (surface_classifier point_local_feat).

Definition query (points calibs : tensor3) (transforms labels : option tensor3)
  : method net unit :=
  match labels with
  | Some l => modify (set_labels (Some l))
  | None => ret tt
  end ;;
  let xyz := projection C points calibs transforms in
  let xy := Tensor.slice1 0 2 xyz in
  let z := Tensor.slice1 2 3 xyz in
  let vgrid := Tensor.as_grid xyz in
  let batch_size := length vgrid in
  let point_num := Tensor.size1 vgrid in
  let in_img := in_img_of xy in
  let z_feat := normalizer C z calibs in
  self <- get ;;
  tmpx_local_feature <-
    (if skip_hourglass (opt self)
     then
       t <- expect (tmpx self) TypeError ;;
       ret (Some (index C t xy))
     else ret None) ;;
  modify (set_intermediate_preds_list []) ;;
  modify (fun self =>
    set_im_feat_list (Py.slice_last (length (voxel_feat_list self)) (im_feat_list self)) self) ;;
  self <- get ;;
  modify (set_intermediate_preds_list
    (map (query_pred xy z vgrid batch_size point_num in_img tmpx_local_feature)
         (combine (im_feat_list self) (voxel_feat_list self)))) ;;
  self <- get ;;
  p <- expect (Py.last_item (intermediate_preds_list self)) IndexError ;;
  modify (set_preds (Some p)).

Definition get_im_feat : method net tensor4 :=
  self <- get ;;
  expect (Py.last_item (im_feat_list self)) IndexError.

(** Modelled from the spec: [get_preds] is a method of BasePIFuNet, which is
    missing from the source; it returns [self.preds]. *)
Definition get_preds : method net (option tensor3) :=
  self <- get ;;
  ret (preds self).

(** The loop of [get_error]; using [self.labels] while it is [None] raises
    AttributeError. *)
Fixpoint get_error_loop (l : list tensor3) (error : R) : method net R :=
  match l with
  | [] => ret error
  | preds :: rest =>
      self <- get ;;
      lab <- expect (labels self) (AttributeError "labels"%string) ;;
      get_error_loop rest (error + error_term C preds lab)
  end.

Definition get_error : method net R :=
  self <- get ;;
  error <- get_error_loop (intermediate_preds_list self) 0 ;;
  match length (intermediate_preds_list self) with
  | O => raise ZeroDivisionError
  | S _ => ret (error / INR (length (intermediate_preds_list self)))
  end.

Definition forward (images : tensor4) (pcd points calibs : tensor3)
    (transforms labels : option tensor3) : method net (option tensor3 * R) :=
  filter images ;;
  pcd_filter pcd ;;
  query points calibs transforms labels ;;
  res <- get_preds ;;
  error <- get_error ;;
  ret (res, error).

End Network.

(** The prediction of one pair of stacks in the words of the specification:
    the classifier's output on the image feature at [xy], the grid-sampled
    volumetric feature and the normalized depth (and the [tmpx] feature). *)
Definition stated_query_pred (C : components) (calibs xy z : tensor3) (vgrid : tensor5)
    (batch_size point_num : nat) (tmpx_local_feature : option tensor3)
    (stacks : tensor4 * tensor5) : tensor3 :=
  let '(im_feat, voxel_feat) := stacks in
  let pt_feat_3D :=
    Tensor.view_m1 batch_size point_num
      (grid_sample C voxel_feat vgrid bilinear border false) in
  let depth := normalizer C z calibs in
  surface_classifier C
    (Tensor.cat1 ([index C im_feat xy; pt_feat_3D; depth] ++
                  match tmpx_local_feature with Some f => [f] | None => [] end)).

(** Reading one element; [None] outside the tensor. *)
Definition item2 {A : Type} (t : list (list A)) (b n : nat) : option A :=
  match nth_error t b with
  | Some row => nth_error row n
  | None => None
  end.

Definition item3 {A : Type} (t : list (list (list A))) (b c n : nat) : option A :=
  match nth_error t b with
  | Some chans => item2 chans c n
  | None => None
  end.

(** The sum of a list of numbers. *)
Definition sum (l : list R) : R := fold_right Rplus 0 l.

(** A number of the closed unit interval. *)
Definition in_unit (v : scalar) : Prop :=
  match v with
  | Num r => 0 <= r <= 1
  | _ => False
  end.

(** NaN, or a number of the closed unit interval. *)
Definition unit_or_nan (v : scalar) : Prop := v = NaN \/ in_unit v.

(** Every element of a tensor lies in the closed unit interval. *)
Definition unit_range (t : tensor3) : Prop :=
  Forall (Forall (Forall in_unit)) t.

(** One element of [in_img]: both image coordinates lie in [-1, 1]. *)
Definition in_image (x y : scalar) : bool :=
  Float.le (Num (-1)) x && Float.le x (Num 1)
  && Float.le (Num (-1)) y && Float.le y (Num 1).

(** The object after the assignment to [self.labels] that opens [query]. *)
Definition with_labels (labels : option tensor3) (self : net) : net :=
  match labels with
  | Some l => set_labels (Some l) self
  | None => self
  end.

(** The [tmpx] feature of [query], once [filter] has assigned [self.tmpx]. *)
Definition tmpx_feature (C : components) (xy : tensor3) (self : net) : option tensor3 :=
  if skip_hourglass (opt self)
  then option_map (fun t => index C t xy) (tmpx self)
  else None.

(** The stacks that the loop of [query] pairs. *)
Definition paired_stacks (self : net) : list (tensor4 * tensor5) :=
  combine (Py.slice_last (length (voxel_feat_list self)) (im_feat_list self))
          (voxel_feat_list self).

(** The predictions that the loop of [query] appends. *)
Definition query_preds (C : components) (points calibs : tensor3)
    (transforms : option tensor3) (self : net) : list tensor3 :=
  let xyz := projection C points calibs transforms in
  let xy := Tensor.slice1 0 2 xyz in
  let vgrid := Tensor.as_grid xyz in
  map (query_pred C xy (Tensor.slice1 2 3 xyz) vgrid (length vgrid) (Tensor.size1 vgrid)
         (in_img_of xy) (tmpx_feature C xy self))
      (paired_stacks self).

(** The input of the classifier for one pair of stacks: the image feature at
    [xy], the volumetric feature sampled at [xyz], the depth row of [xyz],
    and the [tmpx] feature under [opt.skip_hourglass]. *)
Definition classifier_input (C : components) (xyz : tensor3) (self : net)
    (stacks : tensor4 * tensor5) : tensor3 :=
  let xy := Tensor.slice1 0 2 xyz in
  let vgrid := Tensor.as_grid xyz in
  Tensor.cat1
    ([index C (fst stacks) xy;
      Tensor.view_m1 (length vgrid) (Tensor.size1 vgrid)
        (grid_sample C (snd stacks) vgrid bilinear border false);
      Tensor.slice1 2 3 xyz] ++
     match tmpx_feature C xy self with Some f => [f] | None => [] end).

(** An occupancy value. *)
Definition binary (v : scalar) : Prop := v = Num 0 \/ v = Num 1.

(** Grid point [i] is the nearest grid point, as the tree answers, of at
    least one of [points]. *)
Definition hit (tree : tensor1 -> option nat) (points : tensor2) (i : nat) : Prop :=
  exists p, In p points /\ tree p = Some i.

(** A row of [n] cells with the cells [idx] at 1 and the others at 0. *)
Definition marked_row (n : nat) (idx : list nat) : tensor1 :=
  Tensor.index_put (Tensor.new_zeros n) idx (Num 1).

(** The tree answers every point of the cloud with the index of a grid
    point, as scipy's does for the points whose coordinates are numbers. *)
Definition tree_answers_cloud (C : components) (grid : tensor2) (kp_pred : tensor3)
  : Prop :=
  forall points p, In points kp_pred -> In p points ->
    exists i, kdtree_query C grid p = Some i /\ (i < length grid)%nat.

(** The voxel grid that [pcd_filter] hands to [self.volume_filter]. *)
Definition voxel_input (r : nat) (occupancies : tensor2) : tensor5 :=
  Tensor.unsqueeze1 (Tensor.view_cube r occupancies).

(** The last [k] items of a list. *)
Definition lastn {A : Type} (k : nat) (l : list A) : list A :=
  skipn (length l - k) l.

(** The claim that each intermediate prediction is the classifier's output
    on the stated concatenation, for the predictions of one call. *)
Definition prediction_as_stated (C : components) (points calibs : tensor3)
    (transforms labels : option tensor3) (self : net) : Prop :=
  forall self',
    query C points calibs transforms labels self = (Returns tt, self') ->
    let xyz := projection C points calibs transforms in
    let xy := Tensor.slice1 0 2 xyz in
    let vgrid := Tensor.as_grid xyz in
    intermediate_preds_list self' =
    map (stated_query_pred C calibs xy (Tensor.slice1 2 3 xyz) vgrid
           (length vgrid) (Tensor.size1 vgrid) (tmpx_feature C xy self))
        (paired_stacks self).

(** The claim that every value that [query] predicts lies in [0, 1]. *)
Definition preds_in_unit_interval_as_stated (C : components) (points calibs : tensor3)
    (transforms labels : option tensor3) (self : net) : Prop :=
  forall self',
    query C points calibs transforms labels self = (Returns tt, self') ->
    Forall unit_range (intermediate_preds_list self').

(** The claim that [query] predicts exactly 0 for the points that project
    outside the image. *)
Definition outside_is_zero_as_stated (C : components) (points calibs : tensor3)
    (transforms labels : option tensor3) (self : net) : Prop :=
  forall self',
    query C points calibs transforms labels self = (Returns tt, self') ->
    forall b n x y,
      item3 (projection C points calibs transforms) b 0 n = Some x ->
      item3 (projection C points calibs transforms) b 1 n = Some y ->
      in_image x y = false ->
      forall pred c v,
        In pred (intermediate_preds_list self') ->
        item3 pred b c n = Some v -> v = Num 0.

(** The claim that [pcd_filter] builds an occupancy row for each batch
    element, with a cell at 1 exactly when it is the nearest grid point of
    at least one point of the batch element, and at 0 otherwise. *)
Definition occupancy_as_stated (C : components) (pcd : tensor3) (self : net) : Prop :=
  let grid := grid_points self in
  let kp_pred := Tensor.transpose12 pcd in
  exists occupancies : tensor2,
    occupancies_of (kdtree_query C) grid kp_pred = Returns occupancies /\
    forall b points, nth_error kp_pred b = Some points ->
      exists row, nth_error occupancies b = Some row /\
        forall i, (i < length grid)%nat ->
          (nth_error row i = Some (Num 1) <-> hit (kdtree_query C grid) points i) /\
          (nth_error row i = Some (Num 0) <-> ~ hit (kdtree_query C grid) points i).

(** The claim that [pcd_filter] returns. *)
Definition pcd_filter_total (C : components) (pcd : tensor3) (self : net) : Prop :=
  exists self', pcd_filter C pcd self = (Returns tt, self').

(** The mean that [get_error] returns. *)
Definition mean_error (C : components) (lab : tensor3) (l : list tensor3) : R :=
  sum (map (fun p => error_term C p lab) l) / INR (length l).

End TitmouseVolumeNet.

(** ** A small instance

    Two hourglass stacks, one feature volume, a classifier whose layers pass
    the features on, a depth normalizer that halves the depth, an identity
    projection, constant samplers, and the exhaustive search as the tree. *)

Module Demo.

Import TitmouseVolumeNet.

Definition parts : components := {|
  image_filter := fun images => ([images; images], images, images);
  VolumeEncoder := fun voxels => [voxels];
  classifier_layers := fun feature => feature;
  normalizer := fun z calibs => Tensor.map3d (Float.mul (Num (1 / 2))) z;
  projection := fun points calibs transforms => points;
  index := fun feat uv => uv;
  grid_sample := fun input grid mode padding_mode align_corners =>
    map (fun pts => [map (fun _ : tensor3 => [[Num 0]]) pts]) grid;
  kdtree_query := Exhaustive.query;
  error_term := fun pred lab =>
    sum (Tensor.map2
           (fun a b => (Float.value a - Float.value b) * (Float.value a - Float.value b))
           (concat (concat pred)) (concat (concat lab)))
|}.

Definition volume_opt : options := mkOptions 1 "volume" false 2.

Definition point_opt : options := mkOptions 1 "point" false 2.

(** One image of one pixel. *)
Definition images : tensor4 := [[[[Num 0]]]].

(** One cloud of two points, (1, 1, 1) and (-1, 1, 1). *)
Definition pcd : tensor3 :=
  [[[Num 1; Num (-1)]; [Num 1; Num 1]; [Num 1; Num 1]]].

(** The same cloud with a first coordinate that is NaN. *)
Definition nan_pcd : tensor3 :=
  [[[NaN; Num (-1)]; [Num 1; Num 1]; [Num 1; Num 1]]].

(** Two query points, (2, 0, 1) outside the image and (0, 0, 1) inside. *)
Definition points : tensor3 :=
  [[[Num 2; Num 0]; [Num 0; Num 0]; [Num 1; Num 1]]].

(** The same two points with a depth that is NaN. *)
Definition nan_points : tensor3 :=
  [[[Num 2; Num 0]; [Num 0; Num 0]; [NaN; NaN]]].

Definition calibs : tensor3 := [].

Definition gt : tensor3 :=
  [[[Num 0; Num 1]; [Num 0; Num 1]; [Num 0; Num 1]; [Num 0; Num 1]]].

(** The object after [filter] and [pcd_filter] in evaluation mode, with one
    image stack [f] and one feature volume [v]. *)
Definition filtered (f : tensor4) (v : tensor5) : net :=
  mkNet volume_opt false [f] (Some f) (Some f) [v] [] None None.

Definition ready : net := filtered images [[[[[Num 0]]]]].

(** A new network in evaluation mode, as after [net.eval()]. *)
Definition evaluating : net :=
  mkNet volume_opt false [] None None [] [] None None.

End Demo.

(** * Properties *)

Import TitmouseVolumeNet.

(** The tensor types are lists: proofs about them first forget the names. *)
Ltac untensor := unfold tensor5, tensor4, tensor3, tensor2, tensor1 in *.

(** ** Lists and tensors *)

Section ListFacts.

Context {A B D : Type}.

Lemma nth_error_map2 (f : A -> B -> D) (l : list A) (l' : list B) (n : nat) :
  nth_error (Tensor.map2 f l l') n =
  match nth_error l n, nth_error l' n with
  | Some a, Some b => Some (f a b)
  | _, _ => None
  end.
Proof.
  revert l' n; induction l as [|a l IH]; intros [|b l'] [|n]; simpl; auto.
  destruct (nth_error l n); reflexivity.
Qed.

Lemma length_map2 (f : A -> B -> D) (l : list A) (l' : list B) :
  length (Tensor.map2 f l l') = Nat.min (length l) (length l').
Proof.
  revert l'; induction l as [|a l IH]; intros [|b l']; simpl; auto.
Qed.

Lemma Forall_map2 (P : D -> Prop) (f : A -> B -> D) (l : list A) (l' : list B) :
  (forall a b, In a l -> In b l' -> P (f a b)) ->
  Forall P (Tensor.map2 f l l').
Proof.
  revert l'; induction l as [|a l IH]; intros [|b l'] H; simpl; constructor.
  - apply H; left; reflexivity.
  - apply IH; intros x y Hx Hy; apply H; right; assumption.
Qed.

Lemma last_item_app (l : list A) (a : A) : Py.last_item (l ++ [a]) = Some a.
Proof.
  induction l as [|x l IH]; simpl; auto.
  destruct (l ++ [a]) eqn:E; [destruct l; discriminate | exact IH].
Qed.

Lemma last_item_some (l : list A) : l <> [] -> exists a, Py.last_item l = Some a.
Proof.
  induction l as [|x l IH]; intros H; [congruence|].
  destruct l as [|y l]; [exists x; reflexivity|].
  destruct IH as [a Ha]; [discriminate|]. exists a; exact Ha.
Qed.

Lemma last_item_none (l : list A) : Py.last_item l = None -> l = [].
Proof.
  destruct l as [|x l]; auto; intros H.
  destruct (last_item_some (x :: l)) as [a Ha]; [discriminate|congruence].
Qed.

Lemma last_item_split (l : list A) (a : A) :
  Py.last_item l = Some a -> exists l0, l = l0 ++ [a].
Proof.
  induction l as [|x l IH]; simpl; [discriminate|].
  destruct l as [|y l].
  - intros H; injection H as ->; exists []; reflexivity.
  - intros H; destruct (IH H) as [l0 E]; exists (x :: l0); rewrite E; reflexivity.
Qed.

Lemma length_slice_last (k : nat) (l : list A) :
  length (Py.slice_last k l) = match k with O => length l | S _ => Nat.min k (length l) end.
Proof.
  destruct k; unfold Py.slice_last; auto. rewrite length_skipn; lia.
Qed.

Lemma length_combine_slice_last (l : list A) (l' : list B) :
  length (combine (Py.slice_last (length l') l) l') = Nat.min (length l) (length l').
Proof.
  rewrite length_combine, length_slice_last. destruct (length l'); lia.
Qed.

End ListFacts.

Lemma item2_map2 {A B D : Type} (f : A -> B -> D) (t : list (list A)) (t' : list (list B))
    (b n : nat) :
  item2 (Tensor.map2 (Tensor.map2 f) t t') b n =
  match item2 t b n, item2 t' b n with
  | Some x, Some y => Some (f x y)
  | _, _ => None
  end.
Proof.
  unfold item2. rewrite nth_error_map2.
  destruct (nth_error t b) as [r|], (nth_error t' b) as [r'|]; auto.
  - apply nth_error_map2.
  - destruct (nth_error r n); reflexivity.
Qed.

Lemma item2_map {A B : Type} (f : A -> B) (t : list (list A)) (b n : nat) :
  item2 (map (map f) t) b n = option_map f (item2 t b n).
Proof.
  unfold item2. rewrite nth_error_map.
  destruct (nth_error t b) as [r|]; simpl; auto. apply nth_error_map.
Qed.

Lemma item3_map {A B : Type} (f : A -> B) (t : list (list (list A))) (b c n : nat) :
  item3 (map (map (map f)) t) b c n = option_map f (item3 t b c n).
Proof.
  unfold item3. rewrite nth_error_map.
  destruct (nth_error t b) as [r|]; simpl; auto. apply item2_map.
Qed.

Lemma item2_select1 (c : nat) (t : tensor3) (b n : nat) :
  item2 (Tensor.select1 c t) b n = item3 t b c n.
Proof.
  unfold item2, item3, Tensor.select1, item2; untensor. rewrite nth_error_map.
  destruct (nth_error t b) as [chans|]; simpl; auto.
  destruct (nth_error chans c) as [row|] eqn:E.
  - rewrite (nth_error_nth _ _ _ E). reflexivity.
  - rewrite nth_overflow by (apply nth_error_None; exact E).
    destruct n; reflexivity.
Qed.

Lemma item3_slice1_prefix (k : nat) (t : tensor3) (b c n : nat) :
  (c < k)%nat -> item3 (Tensor.slice1 0 k t) b c n = item3 t b c n.
Proof.
  intros Hc. unfold item3, Tensor.slice1, item2; untensor. rewrite nth_error_map.
  destruct (nth_error t b) as [chans|]; simpl; auto.
  rewrite Nat.sub_0_r, nth_error_firstn.
  destruct (Nat.ltb_spec c k); [reflexivity | lia].
Qed.

(** What [mul_mask] does to one element. *)
Lemma item3_mul_mask (m : tensor2) (t : tensor3) (b c n : nat) :
  item3 (Tensor.mul_mask m t) b c n =
  match item2 m b n, item3 t b c n with
  | Some x, Some y => Some (Float.mul x y)
  | _, _ => None
  end.
Proof.
  unfold item3, Tensor.mul_mask, item2; untensor. rewrite nth_error_map2.
  destruct (nth_error m b) as [mrow|], (nth_error t b) as [chans|]; auto.
  - rewrite nth_error_map.
    destruct (nth_error chans c) as [row|]; simpl.
    + apply nth_error_map2.
    + destruct (nth_error mrow n); reflexivity.
  - destruct (nth_error mrow n); reflexivity.
Qed.

(** ** Floating-point values *)

Lemma le_num (a b : R) : Float.le (Num a) (Num b) = true <-> a <= b.
Proof.
  simpl. destruct (Rle_dec a b); split; auto; discriminate.
Qed.

Lemma mul_one_l (v : scalar) : Float.mul (Num 1) v = v.
Proof.
  destruct v as [r| | |]; simpl; auto.
  - f_equal. lra.
  - unfold Float.mul_inf. destruct (Rlt_dec 0 1); [reflexivity | lra].
  - unfold Float.mul_inf. destruct (Rlt_dec 0 1); [reflexivity | lra].
Qed.

Lemma mul_zero_num (r : R) : Float.mul (Num 0) (Num r) = Num 0.
Proof. simpl. f_equal. lra. Qed.

Lemma mul_zero_nan : Float.mul (Num 0) NaN = NaN.
Proof. reflexivity. Qed.

(** ** The in-image mask and the Sigmoid *)

Lemma in_image_true (x y : R) :
  in_image (Num x) (Num y) = true <-> (-1 <= x <= 1 /\ -1 <= y <= 1).
Proof.
  unfold in_image. rewrite !andb_true_iff, !le_num. tauto.
Qed.

Lemma in_image_false (x y : R) :
  in_image (Num x) (Num y) = false <-> (x < -1 \/ 1 < x \/ y < -1 \/ 1 < y).
Proof.
  destruct (in_image (Num x) (Num y)) eqn:E.
  - apply in_image_true in E. split; [discriminate | lra].
  - split; auto. intros _.
    destruct (Rlt_dec x (-1)); auto. destruct (Rlt_dec 1 x); auto.
    destruct (Rlt_dec y (-1)); auto. destruct (Rlt_dec 1 y); auto.
    assert (in_image (Num x) (Num y) = true) by (apply in_image_true; lra). congruence.
Qed.

(** A point inside the image has two numbers as image coordinates. *)
Lemma in_image_numbers (x y : scalar) :
  in_image x y = true ->
  exists a b, x = Num a /\ y = Num b /\ -1 <= a <= 1 /\ -1 <= b <= 1.
Proof.
  intros H. unfold in_image in H. rewrite !andb_true_iff in H.
  destruct H as [[[H1 H2] H3] H4].
  destruct x as [a| | |]; try discriminate H1; try discriminate H2.
  destruct y as [b| | |]; try discriminate H3; try discriminate H4.
  apply le_num in H1, H2, H3, H4. exists a, b. tauto.
Qed.

(** One element of [in_img]. *)
Lemma item2_in_img_of (xy : tensor3) (b n : nat) :
  item2 (in_img_of xy) b n =
  match item3 xy b 0 n, item3 xy b 1 n with
  | Some x, Some y => Some (in_image x y)
  | _, _ => None
  end.
Proof.
  unfold in_img_of, Tensor.band, Tensor.ge_scalar, Tensor.le_scalar.
  rewrite !item2_map2, !item2_map, !item2_select1.
  destruct (item3 xy b 0 n), (item3 xy b 1 n); reflexivity.
Qed.

Lemma logistic_range (x : R) : 0 < logistic x < 1.
Proof.
  unfold logistic. pose proof (exp_pos (- x)) as He.
  assert (Hd : 0 < 1 + exp (- x)) by lra.
  split.
  - apply Rdiv_lt_0_compat; lra.
  - apply Rmult_lt_reg_r with (1 + exp (- x)); [exact Hd|].
    unfold Rdiv. rewrite Rmult_assoc, Rinv_l by lra. lra.
Qed.

Lemma logistic_injective (x y : R) : logistic x = logistic y -> x = y.
Proof.
  unfold logistic. intros H.
  pose proof (exp_pos (- x)) as Hx. pose proof (exp_pos (- y)) as Hy.
  assert (E : exp (- x) = exp (- y)).
  { apply (f_equal Rinv) in H. unfold Rdiv in H.
    rewrite !Rmult_1_l, !Rinv_inv in H. lra. }
  apply exp_inv in E. lra.
Qed.

(** The Sigmoid of a value that is not NaN is a number of [0, 1]. *)
Lemma Sigmoid_in_unit (u : scalar) : u <> NaN -> in_unit (Sigmoid u).
Proof.
  intros H. destruct u as [x| | |]; simpl; try lra; [|congruence].
  pose proof (logistic_range x). lra.
Qed.

Lemma Sigmoid_unit_or_nan (u : scalar) : unit_or_nan (Sigmoid u).
Proof.
  destruct u as [x| | |]; [right | right | right | left; reflexivity];
    apply Sigmoid_in_unit; discriminate.
Qed.

(** The product of a mask value and a number of [0, 1] is one. *)
Lemma mul_bit_in_unit (bit : bool) (v : scalar) :
  in_unit v -> in_unit (Float.mul (if bit then Num 1 else Num 0) v).
Proof.
  destruct v as [r| | |]; simpl; try tauto. intros H.
  destruct bit; simpl; lra.
Qed.

Lemma mul_bit_unit_or_nan (bit : bool) (v : scalar) :
  unit_or_nan v -> unit_or_nan (Float.mul (if bit then Num 1 else Num 0) v).
Proof.
  intros [-> | H].
  - left. destruct bit; reflexivity.
  - right. apply mul_bit_in_unit, H.
Qed.

Lemma query_pred_mask (C : components) (xyz : tensor3) (self : net)
    (stacks : tensor4 * tensor5) :
  let xy := Tensor.slice1 0 2 xyz in
  let vgrid := Tensor.as_grid xyz in
  query_pred C xy (Tensor.slice1 2 3 xyz) vgrid (length vgrid) (Tensor.size1 vgrid)
    (in_img_of xy) (tmpx_feature C xy self) stacks =
  Tensor.mul_mask (Tensor.float (in_img_of xy))
    (surface_classifier C (classifier_input C xyz self stacks)).
Proof.
  destruct stacks as [im_feat voxel_feat].
  unfold query_pred, classifier_input; simpl.
  destruct (tmpx_feature C (Tensor.slice1 0 2 xyz) self); reflexivity.
Qed.

(** One element of a prediction: the product of the mask at the point and
    the classifier's output there. *)
Lemma item3_masked (xy : tensor3) (t : tensor3) (b c n : nat) :
  item3 (Tensor.mul_mask (Tensor.float (in_img_of xy)) t) b c n =
  match item3 xy b 0 n, item3 xy b 1 n, item3 t b c n with
  | Some x, Some y, Some v =>
      Some (Float.mul (if in_image x y then Num 1 else Num 0) v)
  | _, _, _ => None
  end.
Proof.
  rewrite item3_mul_mask. unfold Tensor.float. rewrite item2_map, item2_in_img_of.
  destruct (item3 xy b 0 n), (item3 xy b 1 n), (item3 t b c n); reflexivity.
Qed.

(** One element of the classifier's output is the Sigmoid of the element of
    its layers' output. *)
Lemma item3_surface_classifier (C : components) (feature : tensor3) (b c n : nat) :
  item3 (surface_classifier C feature) b c n =
  option_map Sigmoid (item3 (classifier_layers C feature) b c n).
Proof. unfold surface_classifier, Tensor.map3d. apply item3_map. Qed.

(** ** What one call of each method does *)

Section Runs.

Variable C : components.

Lemma filter_run (images : tensor4) (s : net) :
  filter C images s =
  let '(feats, tx, nx) := image_filter C images in
  let s1 := mkNet (opt s) (training s) feats (Some tx) (Some nx)
              (voxel_feat_list s) (intermediate_preds_list s) (preds s) (labels s) in
  if training s then (Returns tt, s1)
  else match Py.last_item feats with
       | Some f => (Returns tt, set_im_feat_list [f] s1)
       | None => (Raises IndexError, s1)
       end.
Proof.
  unfold filter. destruct (image_filter C images) as [[feats tx] nx].
  destruct s as [o tr ims tx0 nx0 vox ips pr lab].
  unfold bind, modify, get; simpl.
  destruct tr; simpl; [reflexivity|].
  destruct (Py.last_item feats); reflexivity.
Qed.

Lemma pcd_filter_run (pcd : tensor3) (s : net) :
  pcd_filter C pcd s =
  match occupancies_of (kdtree_query C) (grid_points s) (Tensor.transpose12 pcd) with
  | Raises e => (Raises e, s)
  | Returns occupancies =>
      if String.eqb (feat_type (opt s)) "volume"
      then
        let feats := VolumeEncoder C
          (Tensor.unsqueeze1 (Tensor.view_cube (reso_grid (opt s)) occupancies)) in
        if training s then (Returns tt, set_voxel_feat_list feats s)
        else match Py.last_item feats with
             | Some f => (Returns tt, set_voxel_feat_list [f] s)
             | None => (Raises IndexError, set_voxel_feat_list feats s)
             end
      else (Raises (AttributeError "volume_filter"), s)
  end.
Proof.
  unfold pcd_filter, bind, get, lift; simpl.
  destruct (occupancies_of (kdtree_query C) (grid_points s) (Tensor.transpose12 pcd)) as [occ|e];
    [|reflexivity].
  unfold volume_filter.
  destruct (String.eqb (feat_type (opt s)) "volume"); simpl; [|reflexivity].
  destruct s as [o tr ims tx0 nx0 vox ips pr lab]; simpl.
  destruct tr; simpl; [reflexivity|].
  destruct (Py.last_item _); reflexivity.
Qed.

(** [query] stops at the [tmpx] feature when [filter] has not run. *)
Lemma query_run_no_tmpx (points calibs : tensor3) (transforms labels : option tensor3)
    (s : net) :
  skip_hourglass (opt s) = true -> tmpx s = None ->
  query C points calibs transforms labels s = (Raises TypeError, with_labels labels s).
Proof.
  intros Hs Ht. destruct s as [o tr ims tx nx vox ips pr lab]; simpl in Hs, Ht.
  unfold query, bind, get, modify, with_labels.
  destruct labels as [l|]; simpl; rewrite Hs, Ht; reflexivity.
Qed.

Lemma query_run (points calibs : tensor3) (transforms labels : option tensor3) (s : net) :
  (skip_hourglass (opt s) = true -> tmpx s <> None) ->
  query C points calibs transforms labels s =
  let ps := query_preds C points calibs transforms s in
  let s1 := mkNet (opt s) (training s)
              (Py.slice_last (length (voxel_feat_list s)) (im_feat_list s))
              (tmpx s) (normx s) (voxel_feat_list s) ps (preds s)
              (TitmouseVolumeNet.labels (with_labels labels s)) in
  match Py.last_item ps with
  | Some p => (Returns tt, set_preds (Some p) s1)
  | None => (Raises IndexError, s1)
  end.
Proof.
  intros Ht. destruct s as [o tr ims tx nx vox ips pr lab]; simpl in Ht.
  unfold query, query_preds, paired_stacks, tmpx_feature, bind, get, modify, with_labels.
  destruct labels as [l|]; simpl;
    (destruct (skip_hourglass o); simpl;
     [destruct tx as [t|]; [|exfalso; apply Ht; auto]; simpl|];
     destruct (Py.last_item _); reflexivity).
Qed.

Lemma get_error_loop_run (l : list tensor3) (error : R) (s : net) :
  get_error_loop C l error s =
  match l, labels s with
  | [], _ => (Returns error, s)
  | _ :: _, Some lab => (Returns (error + sum (map (fun p => error_term C p lab) l)), s)
  | _ :: _, None => (Raises (AttributeError "labels"), s)
  end.
Proof.
  revert error; induction l as [|p l IH]; intros error; [reflexivity|].
  simpl. unfold bind, get; simpl.
  destruct (labels s) as [lab|] eqn:E; simpl; [|reflexivity].
  rewrite IH. destruct l as [|q l]; simpl.
  - f_equal. f_equal. lra.
  - f_equal. f_equal. lra.
Qed.

Lemma get_error_run (s : net) :
  get_error C s =
  match intermediate_preds_list s, labels s with
  | [], _ => (Raises ZeroDivisionError, s)
  | _ :: _, Some lab => (Returns (mean_error C lab (intermediate_preds_list s)), s)
  | _ :: _, None => (Raises (AttributeError "labels"), s)
  end.
Proof.
  unfold get_error, bind, get. rewrite get_error_loop_run.
  destruct (intermediate_preds_list s) as [|p l]; [reflexivity|].
  destruct (labels s) as [lab|]; [|reflexivity].
  unfold mean_error, ret. simpl length. cbv iota. rewrite Rplus_0_l. reflexivity.
Qed.

Lemma forward_run (images : tensor4) (pcd points calibs : tensor3)
    (transforms labels : option tensor3) (s : net) :
  forward C images pcd points calibs transforms labels s =
  match filter C images s with
  | (Raises e, s1) => (Raises e, s1)
  | (Returns _, s1) =>
      match pcd_filter C pcd s1 with
      | (Raises e, s2) => (Raises e, s2)
      | (Returns _, s2) =>
          match query C points calibs transforms labels s2 with
          | (Raises e, s3) => (Raises e, s3)
          | (Returns _, s3) =>
              match get_error C s3 with
              | (Raises e, s4) => (Raises e, s4)
              | (Returns error, s4) => (Returns (preds s3, error), s4)
              end
          end
      end
  end.
Proof.
  unfold forward, get_preds, bind, get, ret.
  destruct (filter C images s) as [[[]|e] s1]; [|reflexivity].
  destruct (pcd_filter C pcd s1) as [[[]|e] s2]; [|reflexivity].
  destruct (query C points calibs transforms labels s2) as [[[]|e] s3]; [|reflexivity].
  destruct (get_error C s3) as [[error|e] s4]; reflexivity.
Qed.

End Runs.

(** ** Index assignment *)

Lemma nth_error_set_item (i : nat) (v : scalar) (row : tensor1) (j : nat) :
  nth_error (Tensor.set_item i v row) j =
  match nth_error row j with
  | Some x => Some (if Nat.eqb j i then v else x)
  | None => None
  end.
Proof.
  revert i j; induction row as [|x row IH]; intros i j.
  - destruct i, j; reflexivity.
  - destruct i as [|i], j as [|j]; simpl; auto.
    destruct (nth_error row j); reflexivity.
Qed.

Lemma nth_error_index_put (idx : list nat) (v : scalar) (row : tensor1) (j : nat) :
  nth_error (Tensor.index_put row idx v) j =
  match nth_error row j with
  | Some x => Some (if existsb (Nat.eqb j) idx then v else x)
  | None => None
  end.
Proof.
  unfold Tensor.index_put. revert row; induction idx as [|i idx IH]; intros row; simpl.
  - destruct (nth_error row j); reflexivity.
  - rewrite IH, nth_error_set_item.
    destruct (nth_error row j); auto.
    destruct (Nat.eqb j i); simpl; auto.
    destruct (existsb (Nat.eqb j) idx); reflexivity.
Qed.

Lemma length_index_put (idx : list nat) (v : scalar) (row : tensor1) :
  length (Tensor.index_put row idx v) = length row.
Proof.
  unfold Tensor.index_put. revert row; induction idx as [|i idx IH]; intros row; simpl; auto.
  rewrite IH. clear IH. revert i; induction row as [|x row IH]; intros [|i]; simpl; auto.
Qed.

Lemma nth_error_new_zeros (n j : nat) :
  nth_error (Tensor.new_zeros n) j = if (j <? n)%nat then Some (Num 0) else None.
Proof.
  unfold Tensor.new_zeros. destruct (Nat.ltb_spec j n) as [H|H].
  - rewrite nth_error_repeat; auto.
  - apply nth_error_None. rewrite repeat_length; exact H.
Qed.

Lemma existsb_eqb_in (idx : list nat) (j : nat) :
  existsb (Nat.eqb j) idx = true <-> In j idx.
Proof.
  rewrite existsb_exists. split.
  - intros [i [Hi E]]. apply Nat.eqb_eq in E. subst i. exact Hi.
  - intros H. exists j. split; [exact H | apply Nat.eqb_refl].
Qed.

(** ** The exhaustive search *)

Lemma nearest_from_spec (x : list R) (rest : list (list R)) (i best : nat) (d : R) :
  let r := Exhaustive.nearest_from x rest i best d in
  (r = best /\ forall g, In g rest -> d <= Exhaustive.dist2 x g) \/
  (exists g, nth_error rest (r - i) = Some g /\ (i <= r)%nat /\ Exhaustive.dist2 x g < d /\
             forall g', In g' rest -> Exhaustive.dist2 x g <= Exhaustive.dist2 x g').
Proof.
  revert i best d; induction rest as [|g rest IH]; intros i best d; simpl.
  - left; split; [reflexivity | intros g []].
  - destruct (Rlt_dec (Exhaustive.dist2 x g) d) as [Hlt|Hge].
    + right. destruct (IH (S i) i (Exhaustive.dist2 x g)) as [[-> Hmin]|[g2 [Hn [Hi [Hd Hmin]]]]].
      * exists g. rewrite Nat.sub_diag. repeat split; auto.
        intros g' [<-|Hg']; [lra | auto].
      * exists g2. set (r := Exhaustive.nearest_from _ _ _ _ _) in *.
        replace (r - i)%nat with (S (r - S i)) by lia. simpl.
        repeat split; auto; try lia; try lra.
        intros g' [<-|Hg']; [lra | auto].
    + destruct (IH (S i) best d) as [[-> Hmin]|[g2 [Hn [Hi [Hd Hmin]]]]].
      * left. split; auto. intros g' [<-|Hg']; [lra | auto].
      * right. exists g2. set (r := Exhaustive.nearest_from _ _ _ _ _) in *.
        replace (r - i)%nat with (S (r - S i)) by lia. simpl.
        repeat split; auto; try lia.
        intros g' [<-|Hg']; [lra | auto].
Qed.

(** The index that the search returns is the index of a stored point, and no
    stored point is nearer. *)
Lemma nearest_spec (data : list (list R)) (x : list R) :
  data <> [] ->
  exists g, nth_error data (Exhaustive.nearest data x) = Some g /\
            forall g', In g' data -> Exhaustive.dist2 x g <= Exhaustive.dist2 x g'.
Proof.
  destruct data as [|g0 rest]; [congruence|]. intros _. unfold Exhaustive.nearest.
  destruct (nearest_from_spec x rest 1 0 (Exhaustive.dist2 x g0))
    as [[E Hmin]|[g [Hn [Hi [Hd Hmin]]]]].
  - exists g0. rewrite E. split; auto.
    intros g' [<-|Hg']; [lra | auto].
  - exists g. set (r := Exhaustive.nearest_from _ _ _ _ _) in *.
    replace r with (S (r - 1)) by lia. simpl. split; auto.
    intros g' [<-|Hg']; [lra | auto].
Qed.

Lemma nearest_in_range (data : list (list R)) (x : list R) :
  data <> [] -> (Exhaustive.nearest data x < length data)%nat.
Proof.
  intros H. destruct (nearest_spec data x H) as [g [Hg _]].
  apply nth_error_Some. congruence.
Qed.

Lemma length_finite_points (data : tensor2) (d : list (list R)) :
  Exhaustive.finite_points data = Some d -> length d = length data.
Proof.
  revert d; induction data as [|p data IH]; intros d; simpl.
  - intros H; injection H as <-; reflexivity.
  - destruct (Exhaustive.finite p) as [c|]; [|discriminate].
    destruct (Exhaustive.finite_points data) as [d0|]; [|discriminate].
    intros H; injection H as <-. simpl. rewrite (IH d0 eq_refl). reflexivity.
Qed.

(** Over stored points and a point whose coordinates are numbers, the search
    answers with the index of a stored point. *)
Lemma query_in_range (data : tensor2) (x : tensor1) (i : nat) :
  data <> [] -> Exhaustive.query data x = Some i -> (i < length data)%nat.
Proof.
  intros Hd. unfold Exhaustive.query.
  destruct (Exhaustive.finite_points data) as [d|] eqn:Ed; [|discriminate].
  destruct (Exhaustive.finite x) as [c|]; [|discriminate].
  intros H; injection H as <-.
  rewrite <- (length_finite_points _ _ Ed). apply nearest_in_range.
  intros ->. apply length_finite_points in Ed. destruct data; [congruence | discriminate].
Qed.

(** ** The grid *)

Lemma length_flat_map_const {A B : Type} (f : A -> list B) (k : nat) (l : list A) :
  (forall a, length (f a) = k) -> length (flat_map f l) = (length l * k)%nat.
Proof.
  intros H. induction l as [|a l IH]; simpl; auto.
  rewrite length_app, H, IH. reflexivity.
Qed.

Lemma length_linspace (a b : R) (n : nat) : length (linspace a b n) = n.
Proof. unfold linspace. rewrite length_map, length_seq. reflexivity. Qed.

Lemma length_create_grid_points (a b : R) (n : nat) :
  length (create_grid_points_from_bounds a b n) = (n ^ 3)%nat.
Proof.
  unfold create_grid_points_from_bounds.
  rewrite (length_flat_map_const _ (n * n)).
  - rewrite length_linspace. simpl. lia.
  - intros X. rewrite (length_flat_map_const _ n).
    + rewrite length_linspace. reflexivity.
    + intros Y. rewrite length_map, length_linspace. reflexivity.
Qed.

Lemma linspace_bounds (a b : R) (n : nat) (v : scalar) :
  a <= b -> In v (linspace a b n) -> exists x, v = Num x /\ a <= x <= b.
Proof.
  intros Hab Hx. unfold linspace in Hx.
  apply in_map_iff in Hx as [i [<- Hi]]. apply in_seq in Hi.
  eexists. split; [reflexivity|].
  destruct (Nat.eq_dec n 1) as [->|Hn].
  - assert (i = 0)%nat as -> by lia. simpl. lra.
  - assert (Hpos : 0 < INR (n - 1)) by (apply lt_0_INR; lia).
    assert (H0 : 0 <= INR i) by apply pos_INR.
    assert (H1 : INR i <= INR (n - 1)) by (apply le_INR; lia).
    assert (Hq : 0 <= (b - a) / INR (n - 1)).
    { apply Rmult_le_pos; [lra | left; apply Rinv_0_lt_compat; exact Hpos]. }
    split.
    + pose proof (Rmult_le_pos _ _ H0 Hq). lra.
    + assert (INR i * ((b - a) / INR (n - 1)) <= INR (n - 1) * ((b - a) / INR (n - 1)))
        by (apply Rmult_le_compat_r; assumption).
      replace (INR (n - 1) * ((b - a) / INR (n - 1))) with (b - a) in H
        by (field; lra).
      lra.
Qed.

(** Every grid point is a triple of coordinates between the bounds. *)
Lemma grid_point_bounds (a b : R) (n : nat) (g : tensor1) :
  a <= b -> In g (create_grid_points_from_bounds a b n) ->
  exists X Y Z, g = [Num X; Num Y; Num Z] /\
                a <= X <= b /\ a <= Y <= b /\ a <= Z <= b.
Proof.
  intros Hab Hg. unfold create_grid_points_from_bounds in Hg.
  apply in_flat_map in Hg as [X [HX Hg]].
  apply in_flat_map in Hg as [Y [HY Hg]].
  apply in_map_iff in Hg as [Z [<- HZ]].
  destruct (linspace_bounds a b n X Hab HX) as [x [-> Hx]].
  destruct (linspace_bounds a b n Y Hab HY) as [y [-> Hy]].
  destruct (linspace_bounds a b n Z Hab HZ) as [z [-> Hz]].
  exists x, y, z. tauto.
Qed.

Lemma grid_points_nonempty (s : net) :
  (0 < reso_grid (opt s))%nat -> grid_points s <> [].
Proof.
  intros H E. apply (f_equal (@length _)) in E.
  unfold grid_points in E. rewrite length_create_grid_points in E. simpl in E.
  destruct (reso_grid (opt s)); simpl in E; [lia | discriminate].
Qed.

(** ** The occupancy rows *)

Section Rows.

Variable tree : tensor1 -> option nat.

(** The answers for a cloud are the answers for its points. *)
Lemma tree_answers_inv (points : tensor2) (idx : list nat) :
  tree_answers tree points = Some idx ->
  length idx = length points /\
  (forall i, In i idx <-> hit tree points i) /\
  (forall p, In p points -> exists i, tree p = Some i /\ In i idx).
Proof.
  revert idx; induction points as [|p points IH]; intros idx; simpl.
  - intros H; injection H as <-. split; [reflexivity|]. split.
    + intros i; split; [intros [] | intros [q [[] _]]].
    + intros q [].
  - destruct (tree p) as [i0|] eqn:Ep; [|discriminate].
    destruct (tree_answers tree points) as [idx0|]; [|discriminate].
    intros H; injection H as <-.
    destruct (IH idx0 eq_refl) as [Hlen [Hin Hall]].
    split; [simpl; congruence|]. split.
    + intros i; split.
      * intros [<- | Hi]; [exists p; simpl; auto|].
        apply Hin in Hi as [q [Hq Eq]]. exists q; simpl; auto.
      * intros [q [[<- | Hq] Eq]].
        -- left. congruence.
        -- right. apply Hin. exists q; auto.
    + intros q [<- | Hq].
      * exists i0; simpl; auto.
      * destruct (Hall q Hq) as [i [Ei Hi]]. exists i; simpl; auto.
Qed.

Lemma tree_answers_some (points : tensor2) :
  (forall p, In p points -> exists i, tree p = Some i) ->
  exists idx, tree_answers tree points = Some idx.
Proof.
  induction points as [|p points IH]; intros H; simpl.
  - exists []; reflexivity.
  - destruct (H p) as [i ->]; [left; reflexivity|].
    destruct IH as [idx ->]; [intros q Hq; apply H; right; exact Hq|].
    eexists; reflexivity.
Qed.

(** The tree refuses a point exactly when there are no answers. *)
Lemma tree_answers_none (points : tensor2) :
  tree_answers tree points = None <-> exists p, In p points /\ tree p = None.
Proof.
  induction points as [|p points IH]; simpl.
  - split; [discriminate | intros [q [[] _]]].
  - destruct (tree p) as [i|] eqn:Ep.
    + destruct (tree_answers tree points) as [idx|].
      * split; [discriminate|]. intros [q [[<- | Hq] Eq]]; [congruence|].
        assert (@None (list nat) = None) as E by reflexivity.
        destruct IH as [_ IH]. discriminate IH. exists q; auto.
      * split; auto. intros _. destruct IH as [IH _].
        destruct (IH eq_refl) as [q [Hq Eq]]. exists q; auto.
    + split; auto. intros _. exists p; auto.
Qed.

End Rows.

(** One cell of a row: 1 when it is among the marked cells, 0 when not. *)
Lemma nth_error_marked_row (n : nat) (idx : list nat) (i : nat) :
  (i < n)%nat ->
  (nth_error (marked_row n idx) i = Some (Num 1) <-> In i idx) /\
  (nth_error (marked_row n idx) i = Some (Num 0) <-> ~ In i idx).
Proof.
  intros Hi. unfold marked_row.
  rewrite nth_error_index_put, nth_error_new_zeros.
  destruct (Nat.ltb_spec i n) as [_|]; [|lia].
  pose proof (existsb_eqb_in idx i) as Hex.
  destruct (existsb (Nat.eqb i) idx).
  - split; split; auto.
    + intros _; apply Hex; reflexivity.
    + intros H; injection H as H; lra.
    + intros H; exfalso; apply H, Hex; reflexivity.
  - assert (Hn : ~ In i idx) by (intros H; apply Hex in H; discriminate).
    split; split; auto.
    + intros H; injection H as H; lra.
    + intros H; contradiction.
Qed.

Lemma length_marked_row (n : nat) (idx : list nat) : length (marked_row n idx) = n.
Proof.
  unfold marked_row. rewrite length_index_put. apply repeat_length.
Qed.

Lemma set_item_binary (i : nat) (row : tensor1) :
  Forall binary row -> Forall binary (Tensor.set_item i (Num 1) row).
Proof.
  intros H. revert i; induction H as [|x row Hx H IH]; intros i.
  - destruct i; constructor.
  - destruct i; simpl; constructor; auto. right; reflexivity.
Qed.

Lemma new_zeros_binary (n : nat) : Forall binary (Tensor.new_zeros n).
Proof.
  apply Forall_forall. intros v Hv. apply repeat_spec in Hv. left; exact Hv.
Qed.

Lemma marked_row_binary (n : nat) (idx : list nat) : Forall binary (marked_row n idx).
Proof.
  unfold marked_row, Tensor.index_put.
  generalize (new_zeros_binary n). generalize (Tensor.new_zeros n) as row.
  induction idx as [|i idx IH]; intros row H0; simpl; auto.
  apply IH, set_item_binary, H0.
Qed.

Lemma reshape3_binary (d0 d1 d2 : nat) (flat : list scalar) :
  Forall binary flat -> Forall (Forall (Forall binary)) (Tensor.reshape3 d0 d1 d2 flat).
Proof.
  intros H. unfold Tensor.reshape3.
  apply Forall_map, Forall_forall; intros i _.
  apply Forall_map, Forall_forall; intros j _.
  apply Forall_map, Forall_forall; intros k _.
  destruct (nth_in_or_default ((i * d1 + j) * d2 + k) flat (Num 0)) as [Hin | ->].
  - rewrite Forall_forall in H. apply H, Hin.
  - left; reflexivity.
Qed.

Section Occupancies.

Variable kdtree : tensor2 -> tensor1 -> option nat.
Variable grid : tensor2.

(** A returned row: the tree answered every point with a position of the
    row, and the row has exactly the answers marked. *)
Lemma occupancy_row_inv (points : tensor2) (row : tensor1) :
  occupancy_row kdtree grid points = Returns row ->
  exists idx,
    tree_answers (kdtree grid) points = Some idx /\
    (forall i, In i idx -> (i < length grid)%nat) /\
    row = marked_row (length grid) idx.
Proof.
  unfold occupancy_row, marked_row.
  destruct (tree_answers (kdtree grid) points) as [idx|]; [|discriminate].
  destruct (forallb _ idx) eqn:Hin; intros H; [|discriminate].
  injection H as <-. exists idx. repeat split; auto.
  intros i Hi. rewrite forallb_forall in Hin. apply Nat.ltb_lt, Hin, Hi.
Qed.

Lemma occupancy_row_returns (points : tensor2) :
  (forall p, In p points ->
     exists i, kdtree grid p = Some i /\ (i < length grid)%nat) ->
  exists idx,
    tree_answers (kdtree grid) points = Some idx /\
    occupancy_row kdtree grid points = Returns (marked_row (length grid) idx).
Proof.
  intros H.
  destruct (tree_answers_some (kdtree grid) points) as [idx E].
  { intros p Hp. destruct (H p Hp) as [i [Ei _]]. exists i; exact Ei. }
  exists idx. split; [exact E|]. unfold occupancy_row, marked_row. rewrite E.
  replace (forallb _ idx) with true; [reflexivity|].
  symmetry. apply forallb_forall. intros i Hi. apply Nat.ltb_lt.
  destruct (tree_answers_inv _ _ _ E) as [_ [Hin _]].
  apply Hin in Hi as [p [Hp Ep]]. destruct (H p Hp) as [j [Ej Hj]]. congruence.
Qed.

(** The rows of a returned batch, cloud by cloud. *)
Lemma occupancies_of_inv (kp_pred : tensor3) (occupancies : tensor2) :
  occupancies_of kdtree grid kp_pred = Returns occupancies ->
  Forall2 (fun points row => occupancy_row kdtree grid points = Returns row)
          kp_pred occupancies.
Proof.
  revert occupancies; induction kp_pred as [|points rest IH]; intros occ; simpl.
  - intros H; injection H as <-; constructor.
  - destruct (occupancy_row kdtree grid points) as [row|e] eqn:Er; [|discriminate].
    destruct (occupancies_of kdtree grid rest) as [rows|e]; [|discriminate].
    intros H; injection H as <-. constructor; auto.
Qed.

Lemma occupancies_of_returns (kp_pred : tensor3) :
  (forall points p, In points kp_pred -> In p points ->
     exists i, kdtree grid p = Some i /\ (i < length grid)%nat) ->
  exists occupancies, occupancies_of kdtree grid kp_pred = Returns occupancies.
Proof.
  induction kp_pred as [|points rest IH]; intros H; simpl.
  - eexists; reflexivity.
  - destruct (occupancy_row_returns points) as [idx [_ ->]].
    { intros p Hp. apply (H points); [left; reflexivity | exact Hp]. }
    destruct IH as [rows ->].
    { intros pts p Hpts Hp. apply (H pts); [right; exact Hpts | exact Hp]. }
    eexists; reflexivity.
Qed.

(** A batch returns only when the tree answered every point of every cloud
    with a position of the row. *)
Lemma occupancies_of_answered (kp_pred : tensor3) (occupancies : tensor2) :
  occupancies_of kdtree grid kp_pred = Returns occupancies ->
  forall points p, In points kp_pred -> In p points ->
    exists i, kdtree grid p = Some i /\ (i < length grid)%nat.
Proof.
  intros H. apply occupancies_of_inv in H.
  induction H as [|points row kp occ Hrow _ IH]; intros pts p Hpts Hp; [destruct Hpts|].
  destruct Hpts as [<- | Hpts]; [|apply (IH pts); assumption].
  destruct (occupancy_row_inv _ _ Hrow) as [idx [E [Hr _]]].
  destruct (tree_answers_inv _ _ _ E) as [_ [_ Hall]].
  destruct (Hall p Hp) as [i [Ei Hi]]. exists i. auto.
Qed.

End Occupancies.

(** ** When the methods return *)

Section Returns.

Variable C : components.

Lemma pcd_filter_volume (pcd : tensor3) (s : net) (occupancies : tensor2) :
  occupancies_of (kdtree_query C) (grid_points s) (Tensor.transpose12 pcd)
    = Returns occupancies ->
  feat_type (opt s) = "volume"%string ->
  pcd_filter C pcd s =
  let feats := VolumeEncoder C (voxel_input (reso_grid (opt s)) occupancies) in
  if training s then (Returns tt, set_voxel_feat_list feats s)
  else match Py.last_item feats with
       | Some f => (Returns tt, set_voxel_feat_list [f] s)
       | None => (Raises IndexError, set_voxel_feat_list feats s)
       end.
Proof.
  intros Ho Hf. rewrite pcd_filter_run, Ho, Hf. reflexivity.
Qed.

Lemma pcd_filter_other (pcd : tensor3) (s : net) (occupancies : tensor2) :
  occupancies_of (kdtree_query C) (grid_points s) (Tensor.transpose12 pcd)
    = Returns occupancies ->
  feat_type (opt s) <> "volume"%string ->
  pcd_filter C pcd s = (Raises (AttributeError "volume_filter"), s).
Proof.
  intros Ho Hf. rewrite pcd_filter_run, Ho.
  apply String.eqb_neq in Hf. rewrite Hf. reflexivity.
Qed.

Lemma paired_stacks_length (s : net) :
  length (paired_stacks s) =
  Nat.min (length (im_feat_list s)) (length (voxel_feat_list s)).
Proof. apply length_combine_slice_last. Qed.

Lemma query_returns (points calibs : tensor3) (transforms labels : option tensor3)
    (s s' : net) :
  query C points calibs transforms labels s = (Returns tt, s') ->
  exists ps p,
    query_preds C points calibs transforms s = ps ++ [p] /\
    s' = mkNet (opt s) (training s)
           (Py.slice_last (length (voxel_feat_list s)) (im_feat_list s))
           (tmpx s) (normx s) (voxel_feat_list s) (ps ++ [p]) (Some p)
           (TitmouseVolumeNet.labels (with_labels labels s)) /\
    (skip_hourglass (opt s) = true -> tmpx s <> None).
Proof.
  intros H.
  assert (Ht : skip_hourglass (opt s) = true -> tmpx s <> None).
  { intros Hs Hn. rewrite (query_run_no_tmpx _ _ _ _ _ _ Hs Hn) in H. discriminate. }
  rewrite (query_run _ _ _ _ _ _ Ht) in H. cbv zeta in H.
  destruct (Py.last_item (query_preds C points calibs transforms s)) as [p|] eqn:E;
    [|discriminate].
  destruct (last_item_split _ _ E) as [ps Eps].
  exists ps, p. rewrite Eps in H. repeat split; auto.
  injection H as <-. reflexivity.
Qed.

Lemma query_succeeds (points calibs : tensor3) (transforms labels : option tensor3)
    (s : net) :
  (skip_hourglass (opt s) = true -> tmpx s <> None) ->
  im_feat_list s <> [] -> voxel_feat_list s <> [] ->
  exists s', query C points calibs transforms labels s = (Returns tt, s').
Proof.
  intros Ht Hi Hv. rewrite (query_run _ _ _ _ _ _ Ht). cbv zeta.
  destruct (last_item_some (query_preds C points calibs transforms s)) as [p ->].
  - intros E. apply (f_equal (@length _)) in E.
    unfold query_preds in E. rewrite length_map, paired_stacks_length in E.
    destruct (im_feat_list s), (voxel_feat_list s); simpl in E; congruence.
  - eexists; reflexivity.
Qed.

(** The stacks that [query] pairs are the last image stacks, as many as
    there are feature volumes, each with the volume at its position. *)
Lemma paired_stacks_lastn (s : net) :
  paired_stacks s =
  combine (lastn (length (voxel_feat_list s)) (im_feat_list s)) (voxel_feat_list s).
Proof.
  unfold paired_stacks, lastn, Py.slice_last.
  destruct (voxel_feat_list s) as [|v vs]; simpl length.
  - rewrite !combine_nil. reflexivity.
  - reflexivity.
Qed.

Lemma filter_succeeds (images : tensor4) (s : net) :
  fst (fst (image_filter C images)) <> [] ->
  exists s1, filter C images s = (Returns tt, s1) /\
    opt s1 = opt s /\ training s1 = training s /\
    im_feat_list s1 <> [] /\ tmpx s1 <> None.
Proof.
  intros Hne. rewrite filter_run.
  destruct (image_filter C images) as [[feats tx] nx]. simpl in Hne. cbv zeta.
  destruct (training s) eqn:Et.
  - eexists; split; [reflexivity|]. simpl. repeat split; auto; discriminate.
  - destruct (last_item_some feats Hne) as [f ->].
    eexists; split; [reflexivity|]. simpl. repeat split; auto; discriminate.
Qed.

Lemma pcd_filter_succeeds (pcd : tensor3) (s : net) :
  tree_answers_cloud C (grid_points s) (Tensor.transpose12 pcd) ->
  feat_type (opt s) = "volume"%string ->
  (forall voxels, VolumeEncoder C voxels <> []) ->
  exists s2, pcd_filter C pcd s = (Returns tt, s2) /\
    opt s2 = opt s /\ im_feat_list s2 = im_feat_list s /\ tmpx s2 = tmpx s /\
    voxel_feat_list s2 <> [].
Proof.
  intros Ha Hf He.
  destruct (occupancies_of_returns _ _ _ Ha) as [occ Ho].
  rewrite (pcd_filter_volume pcd s occ Ho Hf). cbv zeta.
  destruct (training s).
  - eexists; split; [reflexivity|]. simpl. repeat split; auto.
  - destruct (last_item_some _ (He (voxel_input (reso_grid (opt s)) occ))) as [f ->].
    eexists; split; [reflexivity|]. simpl. repeat split; auto; discriminate.
Qed.

(** One element of a prediction of [query]: the mask at the point times the
    Sigmoid of the output of the classifier's layers there. *)
Lemma item3_query_pred (xyz : tensor3) (s : net) (stacks : tensor4 * tensor5)
    (b c n : nat) (v : scalar) :
  item3 (Tensor.mul_mask (Tensor.float (in_img_of (Tensor.slice1 0 2 xyz)))
           (surface_classifier C (classifier_input C xyz s stacks))) b c n = Some v ->
  exists x y u,
    item3 xyz b 0 n = Some x /\ item3 xyz b 1 n = Some y /\
    item3 (classifier_layers C (classifier_input C xyz s stacks)) b c n = Some u /\
    v = Float.mul (if in_image x y then Num 1 else Num 0) (Sigmoid u).
Proof.
  rewrite item3_masked, !item3_slice1_prefix by lia.
  rewrite item3_surface_classifier.
  destruct (item3 xyz b 0 n) as [x|]; [|discriminate].
  destruct (item3 xyz b 1 n) as [y|]; [|discriminate].
  destruct (item3 (classifier_layers C _) b c n) as [u|]; [|discriminate].
  simpl. intros H; injection H as <-. exists x, y, u. auto.
Qed.

(** Every prediction of [query] is the masked output of the classifier for
    one of the pairs of stacks. *)
Lemma query_preds_inv (points calibs : tensor3) (transforms : option tensor3)
    (s : net) (pred : tensor3) :
  In pred (query_preds C points calibs transforms s) ->
  let xyz := projection C points calibs transforms in
  exists stacks,
    In stacks (paired_stacks s) /\
    pred = Tensor.mul_mask (Tensor.float (in_img_of (Tensor.slice1 0 2 xyz)))
             (surface_classifier C (classifier_input C xyz s stacks)).
Proof.
  intros Hp xyz. unfold query_preds in Hp.
  apply in_map_iff in Hp as [stacks [<- Hs]]. exists stacks.
  split; [exact Hs|]. apply query_pred_mask.
Qed.

End Returns.

(** ** Views *)

Lemma nth_map_lt {A B : Type} (f : A -> B) (l : list A) (d : B) (d' : A) (n : nat) :
  (n < length l)%nat -> nth n (map f l) d = f (nth n l d').
Proof.
  intros H. rewrite (nth_indep _ d (f d')) by (rewrite length_map; exact H).
  apply map_nth.
Qed.

Lemma nth_map_seq {B : Type} (f : nat -> B) (n i : nat) (d : B) :
  (i < n)%nat -> nth i (map f (seq 0 n)) d = f i.
Proof.
  intros H. rewrite (nth_map_lt f _ d O) by (rewrite length_seq; exact H).
  rewrite seq_nth by exact H. reflexivity.
Qed.

Lemma nth_reshape3 (d0 d1 d2 : nat) (flat : list scalar) (i j k : nat) :
  (i < d0)%nat -> (j < d1)%nat -> (k < d2)%nat ->
  nth k (nth j (nth i (Tensor.reshape3 d0 d1 d2 flat) []) []) (Num 0) =
  nth ((i * d1 + j) * d2 + k) flat (Num 0).
Proof.
  intros Hi Hj Hk. unfold Tensor.reshape3.
  rewrite nth_map_seq by exact Hi. rewrite nth_map_seq by exact Hj.
  rewrite nth_map_seq by exact Hk. reflexivity.
Qed.

(** The voxel at [i, j, k] is cell [(i * r + j) * r + k] of the row. *)
Lemma nth_voxel_input (r : nat) (occupancies : tensor2) (b i j k : nat) :
  (i < r)%nat -> (j < r)%nat -> (k < r)%nat -> (b < length occupancies)%nat ->
  nth k (nth j (nth i (nth 0 (nth b (voxel_input r occupancies) []) []) []) []) (Num 0) =
  nth ((i * r + j) * r + k) (nth b occupancies []) (Num 0).
Proof.
  intros Hi Hj Hk Hb. unfold voxel_input, Tensor.unsqueeze1, Tensor.view_cube; untensor.
  rewrite (nth_map_lt (fun v => [v]) _ _ []) by (rewrite length_map; exact Hb).
  simpl nth at 4.
  rewrite (nth_map_lt _ _ _ []) by exact Hb.
  apply nth_reshape3; assumption.
Qed.

(** * The claims *)

Lemma Forall2_nth_error_l {A B : Type} (P : A -> B -> Prop) (l : list A) (l' : list B)
    (n : nat) (a : A) :
  Forall2 P l l' -> nth_error l n = Some a ->
  exists b, nth_error l' n = Some b /\ P a b.
Proof.
  intros H. revert n; induction H as [|x y l l' Hxy _ IH]; intros n Hn.
  - destruct n; discriminate.
  - destruct n as [|n]; simpl in *.
    + injection Hn as <-. exists y; auto.
    + apply IH, Hn.
Qed.

(** C2, amended.  For every point cloud whose points the k-d tree answers
    with indices of grid points, [pcd_filter] builds for each batch element an
    occupancy row over the [reso_grid^3] grid points of the cube [-1, 1]^3:
    a cell is 1 exactly when it is the nearest grid point, as the k-d tree
    answers, of at least one point of that batch element, and 0 exactly when
    it is the nearest grid point of none.  The rows, viewed as
    [reso_grid x reso_grid x reso_grid] voxel grids, are what the volumetric
    encoder, when the network has one, is applied to, and its output becomes
    [voxel_feat_list].  The rows are built for no other cloud: when the
    tree refuses a point, [pcd_filter] raises what the tree raises. *)
Theorem pcd_filter_occupancy (C : components) (pcd : tensor3) (s : net) :
  let r := reso_grid (opt s) in
  let grid := grid_points s in
  let kp_pred := Tensor.transpose12 pcd in
  (tree_answers_cloud C grid kp_pred ->
   exists occupancies : tensor2,
     occupancies_of (kdtree_query C) grid kp_pred = Returns occupancies /\
     length occupancies = length pcd /\
     length grid = (r ^ 3)%nat /\
     (forall g, In g grid ->
        exists X Y Z, g = [Num X; Num Y; Num Z] /\
                      -1 <= X <= 1 /\ -1 <= Y <= 1 /\ -1 <= Z <= 1) /\
     (forall b points, nth_error kp_pred b = Some points ->
        exists row, nth_error occupancies b = Some row /\
          length row = (r ^ 3)%nat /\
          forall i, (i < r ^ 3)%nat ->
            (nth_error row i = Some (Num 1) <-> hit (kdtree_query C grid) points i) /\
            (nth_error row i = Some (Num 0) <-> ~ hit (kdtree_query C grid) points i)) /\
     (forall b i j k, (i < r)%nat -> (j < r)%nat -> (k < r)%nat ->
        (b < length occupancies)%nat ->
        nth k (nth j (nth i (nth 0 (nth b (voxel_input r occupancies) []) []) []) [])
            (Num 0) =
        nth ((i * r + j) * r + k) (nth b occupancies []) (Num 0)) /\
     (feat_type (opt s) = "volume"%string ->
      pcd_filter C pcd s =
        let feats := VolumeEncoder C (voxel_input r occupancies) in
        if training s then (Returns tt, set_voxel_feat_list feats s)
        else match Py.last_item feats with
             | Some f => (Returns tt, set_voxel_feat_list [f] s)
             | None => (Raises IndexError, set_voxel_feat_list feats s)
             end)) /\
  (forall occupancies,
     occupancies_of (kdtree_query C) grid kp_pred = Returns occupancies ->
     tree_answers_cloud C grid kp_pred).
Proof.
  intros r grid kp_pred. split.
  - intros Ha.
    assert (Hlen : length grid = (r ^ 3)%nat)
      by (unfold grid, grid_points; apply length_create_grid_points).
    destruct (occupancies_of_returns _ _ _ Ha) as [occ Ho].
    pose proof (occupancies_of_inv _ _ _ _ Ho) as Hrows.
    exists occ. split; [exact Ho|].
    split.
    { rewrite <- (Forall2_length Hrows). unfold kp_pred, Tensor.transpose12.
      apply length_map. }
    split; [exact Hlen|].
    split.
    { intros g Hin. apply (grid_point_bounds (-1) 1 r g); [lra | exact Hin]. }
    split.
    { intros b points Hb.
      destruct (Forall2_nth_error_l _ _ _ _ _ Hrows Hb) as [row [Hrow Er]].
      exists row. split; [exact Hrow|].
      destruct (occupancy_row_inv _ _ _ _ Er) as [idx [Ei [_ ->]]].
      split; [rewrite length_marked_row; exact Hlen|].
      intros i Hi. rewrite <- Hlen in Hi.
      destruct (nth_error_marked_row (length grid) idx i Hi) as [H1 H0].
      destruct (tree_answers_inv _ _ _ Ei) as [_ [Hin _]].
      rewrite H1, H0, (Hin i). tauto. }
    split.
    { intros b i j k Hi Hj Hk Hb. apply nth_voxel_input; assumption. }
    intros Hf. apply pcd_filter_volume; assumption.
  - intros occ Ho. unfold tree_answers_cloud.
    apply (occupancies_of_answered _ _ _ _ Ho).
Qed.

(** C4.  Every element of the occupancies that [pcd_filter] builds is 0 or 1,
    and so is every element of the voxel grid handed to the volumetric
    encoder. *)
Theorem occupancies_binary (C : components) (pcd : tensor3) (s : net)
    (occupancies : tensor2) :
  occupancies_of (kdtree_query C) (grid_points s) (Tensor.transpose12 pcd)
    = Returns occupancies ->
  Forall (Forall binary) occupancies /\
  Forall (Forall (Forall (Forall (Forall binary))))
         (voxel_input (reso_grid (opt s)) occupancies).
Proof.
  intros H. apply occupancies_of_inv in H.
  assert (Hrows : Forall (Forall binary) occupancies).
  { induction H as [|points row kp occ Hrow _ IH]; constructor; [|exact IH].
    destruct (occupancy_row_inv _ _ _ _ Hrow) as [idx [_ [_ ->]]].
    apply marked_row_binary. }
  split; [exact Hrows|].
  unfold voxel_input, Tensor.unsqueeze1, Tensor.view_cube.
  apply Forall_map, Forall_forall; intros v Hv.
  constructor; [|constructor].
  apply in_map_iff in Hv as [row [<- Hrow]].
  apply reshape3_binary.
  rewrite Forall_forall in Hrows. apply Hrows, Hrow.
Qed.

(** C6, amended.  For a cloud whose points the k-d tree answers with
    indices of grid points, [pcd_filter] returns when [opt.feat_type] is
    'volume' (in evaluation mode the encoder must give at least one feature
    volume): it applies the volumetric encoder to the voxelized occupancies
    and keeps its output, or the last item of it in evaluation mode.  Under
    any other [feat_type] the attribute [volume_filter] was never assigned
    and [pcd_filter] raises AttributeError, leaving the object as it was. *)
Theorem pcd_filter_needs_volume (C : components) (pcd : tensor3) (s : net) :
  tree_answers_cloud C (grid_points s) (Tensor.transpose12 pcd) ->
  (feat_type (opt s) = "volume"%string ->
   (training s = true \/ forall voxels, VolumeEncoder C voxels <> []) ->
   exists occupancies feats s',
     occupancies_of (kdtree_query C) (grid_points s) (Tensor.transpose12 pcd)
       = Returns occupancies /\
     feats = VolumeEncoder C (voxel_input (reso_grid (opt s)) occupancies) /\
     pcd_filter C pcd s = (Returns tt, s') /\
     (training s = true -> s' = set_voxel_feat_list feats s) /\
     (training s = false ->
      exists f, Py.last_item feats = Some f /\ s' = set_voxel_feat_list [f] s)) /\
  (feat_type (opt s) <> "volume"%string ->
   pcd_filter C pcd s = (Raises (AttributeError "volume_filter"), s)).
Proof.
  intros Ha. destruct (occupancies_of_returns _ _ _ Ha) as [occ Ho]. split.
  - intros Hf He. exists occ.
    set (feats := VolumeEncoder C _).
    rewrite (pcd_filter_volume C pcd s occ Ho Hf). cbv zeta. fold feats.
    destruct (training s) eqn:Et.
    + exists feats, (set_voxel_feat_list feats s).
      repeat split; auto. discriminate.
    + destruct He as [He|He]; [discriminate|].
      destruct (last_item_some feats (He _)) as [f Ef]. rewrite Ef.
      exists feats, (set_voxel_feat_list [f] s).
      repeat split; auto.
      * discriminate.
      * intros _. exists f; auto.
  - intros Hf. apply (pcd_filter_other C pcd s occ Ho Hf).
Qed.

(** C9.  [get_error] returns the arithmetic mean of [error_term(pred,
    labels)] over the intermediate predictions: their sum divided by their
    number.  It needs a non-empty [intermediate_preds_list] and assigned
    labels, which a returning [query] with labels leaves; with an empty list
    the division by zero raises ZeroDivisionError. *)
Theorem get_error_mean (C : components) (s : net) :
  (forall lab, intermediate_preds_list s <> [] -> labels s = Some lab ->
     get_error C s =
     (Returns (sum (map (fun p => error_term C p lab) (intermediate_preds_list s))
               / INR (length (intermediate_preds_list s))), s)) /\
  (intermediate_preds_list s = [] -> get_error C s = (Raises ZeroDivisionError, s)) /\
  (forall points calibs transforms lab s',
     query C points calibs transforms (Some lab) s = (Returns tt, s') ->
     intermediate_preds_list s' <> [] /\ labels s' = Some lab /\
     get_error C s' = (Returns (mean_error C lab (intermediate_preds_list s')), s')).
Proof.
  split; [|split].
  - intros lab Hne Hl. rewrite get_error_run, Hl.
    destruct (intermediate_preds_list s); [congruence | reflexivity].
  - intros He. rewrite get_error_run, He. reflexivity.
  - intros points calibs transforms lab s' Hq.
    destruct (query_returns C _ _ _ _ _ _ Hq) as [ps [p [_ [-> _]]]].
    rewrite get_error_run. simpl.
    destruct (ps ++ [p]) eqn:E; [destruct ps; discriminate|].
    repeat split; auto. discriminate.
Qed.

(** C8.  In evaluation mode [filter] leaves exactly one image stack, the last
    one of the hourglass, [pcd_filter] leaves exactly one feature volume, and
    a [query] after them returns with exactly one intermediate prediction,
    which is [preds].  In any mode [query] makes as many intermediate
    predictions as the shorter of [im_feat_list] and [voxel_feat_list] has
    items: one for each of the last [len(voxel_feat_list)] image stacks, paired
    in order with the feature volumes. *)
Theorem query_pairs_stacks (C : components) (points calibs : tensor3)
    (transforms labels : option tensor3) :
  (forall images pcd s s1 s2,
     training s = false ->
     filter C images s = (Returns tt, s1) ->
     pcd_filter C pcd s1 = (Returns tt, s2) ->
     (exists f, Py.last_item (fst (fst (image_filter C images))) = Some f /\
                im_feat_list s1 = [f] /\ im_feat_list s2 = [f]) /\
     (exists v, voxel_feat_list s2 = [v]) /\
     exists p s3,
       query C points calibs transforms labels s2 = (Returns tt, s3) /\
       intermediate_preds_list s3 = [p] /\ preds s3 = Some p) /\
  (forall s,
     (skip_hourglass (opt s) = true -> tmpx s <> None) ->
     let s' := snd (query C points calibs transforms labels s) in
     let xyz := projection C points calibs transforms in
     let xy := Tensor.slice1 0 2 xyz in
     let vgrid := Tensor.as_grid xyz in
     length (intermediate_preds_list s') =
       Nat.min (length (im_feat_list s)) (length (voxel_feat_list s)) /\
     intermediate_preds_list s' =
       map (query_pred C xy (Tensor.slice1 2 3 xyz) vgrid (length vgrid)
              (Tensor.size1 vgrid) (in_img_of xy) (tmpx_feature C xy s))
           (combine (lastn (length (voxel_feat_list s)) (im_feat_list s))
                    (voxel_feat_list s))).
Proof.
  split.
  - intros images pcd s s1 s2 Ht Hf Hp.
    rewrite filter_run in Hf.
    destruct (image_filter C images) as [[feats tx] nx] eqn:Ei. cbv zeta in Hf.
    rewrite Ht in Hf.
    destruct (Py.last_item feats) as [f|] eqn:Ef; [|discriminate].
    injection Hf as <-.
    rewrite pcd_filter_run in Hp.
    destruct (occupancies_of _ _) as [occ|e]; [|discriminate].
    destruct (String.eqb _ _); [|discriminate].
    cbv zeta in Hp. cbn [training set_im_feat_list] in Hp.
    destruct (Py.last_item (VolumeEncoder C _)) as [v|]; [|discriminate].
    injection Hp as <-.
    split; [exists f; simpl; auto|].
    split; [exists v; reflexivity|].
    rewrite query_run by (simpl; discriminate).
    unfold query_preds, paired_stacks. simpl.
    eexists; eexists. split; [reflexivity|]. simpl. auto.
  - intros s Ht s' xyz xy vgrid. subst s'.
    rewrite (query_run C _ _ _ _ _ Ht). cbv zeta.
    assert (E : intermediate_preds_list
              (snd (match Py.last_item (query_preds C points calibs transforms s) with
                    | Some p => (Returns tt, set_preds (Some p)
                        (mkNet (opt s) (training s)
                           (Py.slice_last (length (voxel_feat_list s)) (im_feat_list s))
                           (tmpx s) (normx s) (voxel_feat_list s)
                           (query_preds C points calibs transforms s) (preds s)
                           (TitmouseVolumeNet.labels (with_labels labels s))))
                    | None => (Raises IndexError,
                        mkNet (opt s) (training s)
                           (Py.slice_last (length (voxel_feat_list s)) (im_feat_list s))
                           (tmpx s) (normx s) (voxel_feat_list s)
                           (query_preds C points calibs transforms s) (preds s)
                           (TitmouseVolumeNet.labels (with_labels labels s)))
                    end)) = query_preds C points calibs transforms s).
    { destruct (Py.last_item _); reflexivity. }
    rewrite E. unfold query_preds. fold xyz xy vgrid.
    split.
    + rewrite length_map. apply paired_stacks_length.
    + rewrite paired_stacks_lastn. reflexivity.
Qed.

(** C3.  [forward] is [filter(images)], then [pcd_filter(pcd)], then
    [query(points, calibs, transforms, labels)], then [get_preds] and
    [get_error]: an exception of a step is the exception of [forward], and
    when [forward] returns it returns the pair of [self.preds], which is the
    last intermediate prediction of [query], and the value of [get_error],
    the mean of the error term over the intermediate predictions.  With the
    volumetric encoder in place, a cloud whose points the k-d tree answers
    with indices of grid points, sub-networks that give at least one stack,
    and labels, [forward] returns. *)
Theorem forward_composition (C : components) (images : tensor4)
    (pcd points calibs : tensor3) (transforms labels : option tensor3) (s : net) :
  forward C images pcd points calibs transforms labels s =
    match filter C images s with
    | (Raises e, s1) => (Raises e, s1)
    | (Returns _, s1) =>
        match pcd_filter C pcd s1 with
        | (Raises e, s2) => (Raises e, s2)
        | (Returns _, s2) =>
            match query C points calibs transforms labels s2 with
            | (Raises e, s3) => (Raises e, s3)
            | (Returns _, s3) =>
                match get_error C s3 with
                | (Raises e, s4) => (Raises e, s4)
                | (Returns error, s4) => (Returns (preds s3, error), s4)
                end
            end
        end
    end /\
  (forall res error s',
     forward C images pcd points calibs transforms labels s = (Returns (res, error), s') ->
     exists s1 s2 ps p lab,
       filter C images s = (Returns tt, s1) /\
       pcd_filter C pcd s1 = (Returns tt, s2) /\
       query C points calibs transforms labels s2 = (Returns tt, s') /\
       intermediate_preds_list s' = ps ++ [p] /\
       preds s' = Some p /\ res = Some p /\
       TitmouseVolumeNet.labels s' = Some lab /\
       get_error C s' = (Returns error, s') /\
       error = sum (map (fun q => error_term C q lab) (ps ++ [p]))
               / INR (length (ps ++ [p]))) /\
  (forall lab,
     labels = Some lab ->
     feat_type (opt s) = "volume"%string ->
     tree_answers_cloud C (grid_points s) (Tensor.transpose12 pcd) ->
     fst (fst (image_filter C images)) <> [] ->
     (forall voxels, VolumeEncoder C voxels <> []) ->
     exists res error s',
       forward C images pcd points calibs transforms labels s =
       (Returns (res, error), s')).
Proof.
  split; [apply forward_run|]. split.
  - intros res error s' H. rewrite forward_run in H.
    destruct (filter C images s) as [[[]|e] s1] eqn:Hf; [|discriminate].
    destruct (pcd_filter C pcd s1) as [[[]|e] s2] eqn:Hp; [|discriminate].
    destruct (query C points calibs transforms labels s2) as [[[]|e] s3] eqn:Hq;
      [|discriminate].
    destruct (query_returns C _ _ _ _ _ _ Hq) as [ps [p [_ [Es3 _]]]].
    rewrite get_error_run in H.
    assert (Ei : intermediate_preds_list s3 = ps ++ [p]) by (rewrite Es3; reflexivity).
    assert (Ep : preds s3 = Some p) by (rewrite Es3; reflexivity).
    rewrite Ei in H.
    destruct (ps ++ [p]) as [|q l] eqn:El; [discriminate|].
    destruct (TitmouseVolumeNet.labels s3) as [lab|] eqn:Elab; [|discriminate].
    injection H as <- <- <-.
    exists s1, s2, ps, p, lab.
    rewrite get_error_run, Ei, El, Elab. unfold mean_error.
    repeat split; auto.
  - intros lab -> Hf Hr Hi He. rewrite forward_run.
    destruct (filter_succeeds C images s Hi) as [s1 [-> [Ho [_ [Him Htx]]]]].
    unfold grid_points in Hr. rewrite <- Ho in Hf, Hr.
    destruct (pcd_filter_succeeds C pcd s1 Hr Hf He) as [s2 [-> [_ [Him2 [Htx2 Hv]]]]].
    rewrite <- Him2 in Him. rewrite <- Htx2 in Htx.
    destruct (query_succeeds C points calibs transforms (Some lab) s2 (fun _ => Htx) Him Hv)
      as [s3 Hq].
    rewrite Hq. destruct (query_returns C _ _ _ _ _ _ Hq) as [ps [p [_ [Es3 _]]]].
    rewrite get_error_run, Es3. simpl.
    destruct (ps ++ [p]) eqn:El; [destruct ps; discriminate|].
    eexists; eexists; eexists; reflexivity.
Qed.

(** C5, amended.  Every value of every intermediate prediction of a
    returning [query], and of [self.preds], is NaN or a number of the closed
    interval from 0 to 1: it is the product of a 0/1 mask value and the
    Sigmoid of the output of the classifier's layers at that place, and it is
    a number of [0, 1] wherever that output is not NaN. *)
Theorem query_preds_in_unit_interval (C : components) (points calibs : tensor3)
    (transforms labels : option tensor3) (s s' : net) :
  query C points calibs transforms labels s = (Returns tt, s') ->
  let xyz := projection C points calibs transforms in
  forall pred,
    In pred (intermediate_preds_list s') \/ preds s' = Some pred ->
    exists stacks,
      In stacks (paired_stacks s) /\
      forall b c n v,
        item3 pred b c n = Some v ->
        unit_or_nan v /\
        exists u,
          item3 (classifier_layers C (classifier_input C xyz s stacks)) b c n = Some u /\
          (u <> NaN -> in_unit v).
Proof.
  intros Hq xyz pred Hin.
  destruct (query_returns C _ _ _ _ _ _ Hq) as [ps [p [Eps [-> _]]]].
  simpl in Hin.
  assert (Hp : In pred (query_preds C points calibs transforms s)).
  { rewrite Eps. destruct Hin as [Hin|Hin]; [exact Hin|].
    injection Hin as <-. apply in_or_app; right; left; reflexivity. }
  destruct (query_preds_inv C _ _ _ _ _ Hp) as [stacks [Hs ->]]. fold xyz.
  exists stacks. split; [exact Hs|].
  intros b c n v Hv.
  destruct (item3_query_pred C xyz s stacks b c n v Hv) as [x [y [u [_ [_ [Hu ->]]]]]].
  split.
  - apply mul_bit_unit_or_nan, Sigmoid_unit_or_nan.
  - exists u. split; [exact Hu|]. intros Hn.
    apply mul_bit_in_unit, Sigmoid_in_unit, Hn.
Qed.

(** C1, amended.  There is a depth channel, a function of the depth row [z]
    of the projection and of [calibs] alone, with which every returning
    [query] makes each intermediate prediction as the elementwise product of
    the in-image mask and the output of the surface classifier on the
    concatenation of the image feature stack indexed at the projected [xy],
    the volumetric feature grid-sampled (bilinear, border padding) at the
    projected [xyz], the depth channel, and the [tmpx] feature under
    [opt.skip_hourglass]; [self.preds] is the last of them.  The prediction
    for a point that projects into the image is the classifier's output
    there; for any other point it is the product of 0 and that output. *)
Theorem query_prediction (C : components) :
  exists depth : tensor3 -> tensor3 -> tensor3,
  forall (points calibs : tensor3) (transforms labels : option tensor3) (s s' : net),
  query C points calibs transforms labels s = (Returns tt, s') ->
  let xyz := projection C points calibs transforms in
  let xy := Tensor.slice1 0 2 xyz in
  let vgrid := Tensor.as_grid xyz in
  let feature (stacks : tensor4 * tensor5) :=
    Tensor.cat1
      ([index C (fst stacks) xy;
        Tensor.view_m1 (length vgrid) (Tensor.size1 vgrid)
          (grid_sample C (snd stacks) vgrid bilinear border false);
        depth (Tensor.slice1 2 3 xyz) calibs] ++
       (if skip_hourglass (opt s)
        then match tmpx s with Some t => [index C t xy] | None => [] end
        else [])) in
  intermediate_preds_list s' =
    map (fun stacks =>
           Tensor.mul_mask (Tensor.float (in_img_of xy))
                           (surface_classifier C (feature stacks)))
        (paired_stacks s) /\
  (exists ps p, intermediate_preds_list s' = ps ++ [p] /\ preds s' = Some p) /\
  (forall stacks b c n x y,
     item3 xyz b 0 n = Some x -> item3 xyz b 1 n = Some y ->
     item3 (Tensor.mul_mask (Tensor.float (in_img_of xy))
                            (surface_classifier C (feature stacks))) b c n =
     option_map (Float.mul (if in_image x y then Num 1 else Num 0))
                (item3 (surface_classifier C (feature stacks)) b c n) /\
     (in_image x y = true ->
      item3 (Tensor.mul_mask (Tensor.float (in_img_of xy))
                             (surface_classifier C (feature stacks))) b c n =
      item3 (surface_classifier C (feature stacks)) b c n)).
Proof.
  exists (fun z _ => z).
  intros points calibs transforms labels s s' Hq xyz xy vgrid feature.
  destruct (query_returns C _ _ _ _ _ _ Hq) as [ps [p [Eps [-> _]]]].
  assert (Ef : forall stacks, feature stacks = classifier_input C xyz s stacks).
  { intros stacks. unfold feature, classifier_input, tmpx_feature.
    fold xy vgrid. destruct (skip_hourglass (opt s)); [|reflexivity].
    destruct (tmpx s); reflexivity. }
  simpl. split; [|split].
  - rewrite <- Eps. unfold query_preds. apply map_ext. intros stacks.
    fold xyz. rewrite query_pred_mask, Ef. reflexivity.
  - exists ps, p; auto.
  - intros stacks b c n x y Hx Hy.
    rewrite item3_masked. unfold xy. rewrite !item3_slice1_prefix by lia.
    rewrite Hx, Hy.
    destruct (item3 (surface_classifier C (feature stacks)) b c n) as [v|]; simpl; auto.
    split; [reflexivity|]. intros ->. rewrite mul_one_l. reflexivity.
Qed.

(** * The claims on the small instance *)

Lemma demo_query_returns (points : tensor3) (labels : option tensor3) :
  query Demo.parts points Demo.calibs None labels Demo.ready =
  (Returns tt, snd (query Demo.parts points Demo.calibs None labels Demo.ready)).
Proof. destruct labels; reflexivity. Qed.

Lemma demo_outside : in_image (Num 2) (Num 0) = false.
Proof. apply in_image_false. lra. Qed.

Lemma demo_inside : in_image (Num 0) (Num 0) = true.
Proof. apply in_image_true. lra. Qed.

(** The prediction that [query] makes on the small instance: 0 for the
    point outside the image, and on the depth channel of the point inside
    the Sigmoid of its depth. *)
Lemma demo_preds :
  exists p,
    intermediate_preds_list
      (snd (query Demo.parts Demo.points Demo.calibs None None Demo.ready)) = [p] /\
    item3 p 0 0 0 = Some (Num 0) /\
    item3 p 0 3 1 = Some (Num (logistic 1)).
Proof.
  eexists. split; [reflexivity|].
  rewrite (query_pred_mask Demo.parts Demo.points Demo.ready), !item3_masked.
  split.
  - change (Some (Float.mul (if in_image (Num 2) (Num 0) then Num 1 else Num 0)
                            (Num (logistic 2))) = Some (Num 0)).
    rewrite demo_outside, mul_zero_num. reflexivity.
  - change (Some (Float.mul (if in_image (Num 0) (Num 0) then Num 1 else Num 0)
                            (Num (logistic 1))) = Some (Num (logistic 1))).
    rewrite demo_inside, mul_one_l. reflexivity.
Qed.

(** The prediction on the points whose depth is NaN: NaN on the depth
    channel, for the point outside the image as for the point inside. *)
Lemma demo_nan_preds :
  exists p,
    intermediate_preds_list
      (snd (query Demo.parts Demo.nan_points Demo.calibs None None Demo.ready)) = [p] /\
    item3 p 0 3 0 = Some NaN /\
    item3 p 0 3 1 = Some NaN.
Proof.
  eexists. split; [reflexivity|].
  rewrite (query_pred_mask Demo.parts Demo.nan_points Demo.ready), !item3_masked.
  split.
  - change (Some (Float.mul (if in_image (Num 2) (Num 0) then Num 1 else Num 0) NaN)
            = Some NaN).
    rewrite demo_outside. reflexivity.
  - change (Some (Float.mul (if in_image (Num 0) (Num 0) then Num 1 else Num 0) NaN)
            = Some NaN).
    rewrite demo_inside. reflexivity.
Qed.

Lemma unit_range_item (t : tensor3) (b c n : nat) (v : scalar) :
  unit_range t -> item3 t b c n = Some v -> in_unit v.
Proof.
  unfold unit_range, item3, item2. untensor. intros H.
  destruct (nth_error t b) as [chans|] eqn:Eb; [|intros E; discriminate E].
  destruct (nth_error chans c) as [row|] eqn:Ec; [|intros E; discriminate E].
  intros En.
  apply nth_error_In in Eb, Ec, En.
  rewrite Forall_forall in H. specialize (H _ Eb).
  rewrite Forall_forall in H. specialize (H _ Ec).
  rewrite Forall_forall in H. apply H, En.
Qed.

(** C1 as stated fails on the small instance.  Point 0 projects to
    [x = 2], outside the image: [query] predicts 0 for it, the stated
    prediction is the classifier's output, the Sigmoid of 2.  Point 1
    projects into the image: on the depth channel [query] predicts the
    Sigmoid of 1, the stated prediction is the Sigmoid of 1 / 2, from the
    normalized depth. *)
Lemma stated_prediction_fails :
  (exists p q,
     intermediate_preds_list
       (snd (query Demo.parts Demo.points Demo.calibs None None Demo.ready)) = [p] /\
     (let xyz := projection Demo.parts Demo.points Demo.calibs None in
      let xy := Tensor.slice1 0 2 xyz in
      let vgrid := Tensor.as_grid xyz in
      map (stated_query_pred Demo.parts Demo.calibs xy (Tensor.slice1 2 3 xyz) vgrid
             (length vgrid) (Tensor.size1 vgrid) (tmpx_feature Demo.parts xy Demo.ready))
          (paired_stacks Demo.ready)) = [q] /\
     item3 p 0 0 0 = Some (Num 0) /\ item3 q 0 0 0 = Some (Num (logistic 2)) /\
     logistic 2 <> 0 /\
     item3 p 0 3 1 = Some (Num (logistic 1)) /\
     item3 q 0 3 1 = Some (Num (logistic (1 / 2 * 1))) /\
     logistic 1 <> logistic (1 / 2 * 1)) /\
  ~ prediction_as_stated Demo.parts Demo.points Demo.calibs None None Demo.ready.
Proof.
  destruct demo_preds as [p [Ep [H0 H1]]].
  assert (Hs : logistic 2 <> 0) by (pose proof (logistic_range 2); lra).
  split.
  - exists p. eexists. split; [exact Ep|]. split; [reflexivity|].
    repeat split; auto.
    intros E. apply logistic_injective in E. lra.
  - intros H. specialize (H _ (demo_query_returns Demo.points None)). cbv zeta in H.
    rewrite Ep in H.
    apply (f_equal (fun l => item3 (hd [] l) 0 0 0)) in H.
    change (item3 p 0 0 0 = Some (Num (logistic 2))) in H.
    rewrite H0 in H. injection H as H. lra.
Qed.

Lemma query_prediction_witness :
  exists ps p,
    intermediate_preds_list
      (snd (query Demo.parts Demo.points Demo.calibs None None Demo.ready)) = ps ++ [p] /\
    preds (snd (query Demo.parts Demo.points Demo.calibs None None Demo.ready)) = Some p.
Proof.
  destruct (query_prediction Demo.parts) as [depth H].
  apply (H Demo.points Demo.calibs None None Demo.ready). reflexivity.
Defined.

Lemma demo_linspace : linspace (-1) 1 2 = [Num (-1); Num 1].
Proof.
  unfold linspace. cbn [seq map Nat.sub INR].
  f_equal; [f_equal; lra | f_equal; f_equal; field].
Qed.

(** The eight grid points of the instance, the last axis varying fastest. *)
Lemma demo_grid :
  create_grid_points_from_bounds (-1) 1 2 =
  [[Num (-1); Num (-1); Num (-1)]; [Num (-1); Num (-1); Num 1];
   [Num (-1); Num 1; Num (-1)]; [Num (-1); Num 1; Num 1];
   [Num 1; Num (-1); Num (-1)]; [Num 1; Num (-1); Num 1];
   [Num 1; Num 1; Num (-1)]; [Num 1; Num 1; Num 1]].
Proof.
  unfold create_grid_points_from_bounds. rewrite demo_linspace. reflexivity.
Qed.

(** One comparison of the exhaustive search between known numbers. *)
Ltac nearest_step :=
  match goal with
  | |- context [Rlt_dec ?a ?b] =>
      let H := fresh "H" in
      destruct (Rlt_dec a b) as [H|H];
      unfold Exhaustive.dist2 in H; cbn [Tensor.map2 fold_right] in H;
      try (exfalso; lra)
  end.

(** The two points of the cloud are the grid points 7 and 3. *)
Lemma demo_nearest :
  Exhaustive.query (create_grid_points_from_bounds (-1) 1 2) [Num 1; Num 1; Num 1] = Some 7%nat /\
  Exhaustive.query (create_grid_points_from_bounds (-1) 1 2) [Num (-1); Num 1; Num 1] = Some 3%nat.
Proof.
  rewrite demo_grid. unfold Exhaustive.query.
  cbn [Exhaustive.finite_points Exhaustive.finite]. unfold Exhaustive.nearest.
  cbn [Exhaustive.nearest_from].
  split; repeat nearest_step; reflexivity.
Qed.

Lemma demo_row :
  occupancy_row (kdtree_query Demo.parts) (create_grid_points_from_bounds (-1) 1 2)
    [[Num 1; Num 1; Num 1]; [Num (-1); Num 1; Num 1]] =
  Returns [Num 0; Num 0; Num 0; Num 1; Num 0; Num 0; Num 0; Num 1].
Proof.
  change (kdtree_query Demo.parts) with Exhaustive.query.
  destruct demo_nearest as [E7 E3].
  unfold occupancy_row. cbn [tree_answers].
  rewrite E7, E3, demo_grid. reflexivity.
Qed.

Lemma demo_occupancies :
  occupancies_of (kdtree_query Demo.parts) (create_grid_points_from_bounds (-1) 1 2)
    (Tensor.transpose12 Demo.pcd) =
  Returns [[Num 0; Num 0; Num 0; Num 1; Num 0; Num 0; Num 0; Num 1]].
Proof.
  change (Tensor.transpose12 Demo.pcd)
    with [[[Num 1; Num 1; Num 1]; [Num (-1); Num 1; Num 1]]].
  change (kdtree_query Demo.parts) with Exhaustive.query.
  destruct demo_nearest as [E7 E3].
  cbn [occupancies_of]. unfold occupancy_row. cbn [tree_answers].
  rewrite E7, E3, demo_grid. reflexivity.
Qed.

(** The search answers the points of the cloud with grid points. *)
Lemma demo_tree_answers :
  tree_answers_cloud Demo.parts (create_grid_points_from_bounds (-1) 1 2)
    (Tensor.transpose12 Demo.pcd).
Proof.
  exact (occupancies_of_answered _ _ _ _ demo_occupancies).
Qed.

(** C2 as stated fails on the small instance: the first point of the cloud
    has a coordinate that is NaN, the tree refuses it, and [pcd_filter]
    raises ValueError without building an occupancy row. *)
Lemma pcd_filter_occupancy_fails :
  pcd_filter Demo.parts Demo.nan_pcd Demo.evaluating =
    (Raises ValueError, Demo.evaluating) /\
  ~ occupancy_as_stated Demo.parts Demo.nan_pcd Demo.evaluating.
Proof.
  assert (E : occupancies_of (kdtree_query Demo.parts) (grid_points Demo.evaluating)
                (Tensor.transpose12 Demo.nan_pcd) = Raises ValueError).
  { change (Tensor.transpose12 Demo.nan_pcd)
      with [[[NaN; Num 1; Num 1]; [Num (-1); Num 1; Num 1]]].
    change (kdtree_query Demo.parts) with Exhaustive.query.
    cbn [occupancies_of]. unfold occupancy_row. cbn [tree_answers].
    unfold Exhaustive.query at 1.
    destruct (Exhaustive.finite_points (grid_points Demo.evaluating)); reflexivity. }
  split.
  - rewrite pcd_filter_run, E. reflexivity.
  - intros [occupancies [Ho _]]. cbv zeta in Ho. rewrite E in Ho. discriminate Ho.
Qed.

Lemma pcd_filter_occupancy_witness :
  exists occupancies,
    occupancies_of (kdtree_query Demo.parts) (grid_points Demo.evaluating)
      (Tensor.transpose12 Demo.pcd) = Returns occupancies /\
    occupancies = [[Num 0; Num 0; Num 0; Num 1; Num 0; Num 0; Num 0; Num 1]] /\
    pcd_filter Demo.parts Demo.pcd Demo.evaluating =
      (Returns tt, set_voxel_feat_list [voxel_input 2 occupancies] Demo.evaluating).
Proof.
  destruct (proj1 (pcd_filter_occupancy Demo.parts Demo.pcd Demo.evaluating)
              demo_tree_answers)
    as [occupancies [H1 [_ [_ [_ [_ [_ H2]]]]]]].
  exists occupancies. split; [exact H1|]. split; [|exact (H2 eq_refl)].
  pose proof demo_occupancies as E.
  change (create_grid_points_from_bounds (-1) 1 2) with (grid_points Demo.evaluating) in E.
  rewrite E in H1. injection H1 as <-. reflexivity.
Defined.

Lemma forward_composition_witness :
  exists res error s',
    forward Demo.parts Demo.images Demo.pcd Demo.points Demo.calibs None
            (Some Demo.gt) Demo.evaluating = (Returns (res, error), s').
Proof.
  apply (forward_composition Demo.parts Demo.images Demo.pcd Demo.points Demo.calibs
           None (Some Demo.gt) Demo.evaluating) with (lab := Demo.gt).
  - reflexivity.
  - reflexivity.
  - exact demo_tree_answers.
  - simpl. discriminate.
  - intros voxels. simpl. discriminate.
Defined.

Lemma occupancies_binary_witness :
  Forall (Forall binary) [[Num 0; Num 0; Num 0; Num 1; Num 0; Num 0; Num 0; Num 1]].
Proof.
  exact (proj1 (occupancies_binary Demo.parts Demo.pcd Demo.evaluating _
                  demo_occupancies)).
Defined.

(** C5 as stated fails on the small instance: the second query point is
    inside the image and its depth is NaN, and the prediction on the depth
    channel is NaN, which is no number of [0, 1]. *)
Lemma preds_in_unit_interval_fails :
  (exists p,
     intermediate_preds_list
       (snd (query Demo.parts Demo.nan_points Demo.calibs None None Demo.ready)) = [p] /\
     item3 p 0 3 1 = Some NaN) /\
  ~ preds_in_unit_interval_as_stated Demo.parts Demo.nan_points Demo.calibs None None
      Demo.ready.
Proof.
  destruct demo_nan_preds as [p [Ep [_ H1]]].
  split; [exists p; auto|].
  intros H. specialize (H _ (demo_query_returns Demo.nan_points None)).
  rewrite Ep in H. apply Forall_inv in H.
  exact (unit_range_item p 0 3 1 NaN H H1).
Qed.

Lemma query_preds_in_unit_interval_witness :
  exists p stacks,
    preds (snd (query Demo.parts Demo.points Demo.calibs None None Demo.ready)) = Some p /\
    In stacks (paired_stacks Demo.ready) /\
    forall b c n v, item3 p b c n = Some v -> unit_or_nan v.
Proof.
  destruct (query_preds_in_unit_interval Demo.parts Demo.points Demo.calibs None None
              Demo.ready _ eq_refl
              (Tensor.mul_mask
                 (Tensor.float (in_img_of (Tensor.slice1 0 2 Demo.points)))
                 (surface_classifier Demo.parts
                    (classifier_input Demo.parts Demo.points Demo.ready
                       (Demo.images, [[[[[Num 0]]]]]))))
              (or_intror eq_refl))
    as [stacks [Hs H]].
  eexists. exists stacks. split; [reflexivity|]. split; [exact Hs|].
  intros b c n v Hv. apply (H b c n v Hv).
Defined.

(** C6 as stated fails on the small instance under [feat_type = 'point']:
    [pcd_filter] raises AttributeError. *)
Lemma pcd_filter_point_raises :
  pcd_filter Demo.parts Demo.pcd (init Demo.point_opt) =
    (Raises (AttributeError "volume_filter"), init Demo.point_opt) /\
  ~ pcd_filter_total Demo.parts Demo.pcd (init Demo.point_opt).
Proof.
  assert (H : pcd_filter Demo.parts Demo.pcd (init Demo.point_opt) =
              (Raises (AttributeError "volume_filter"), init Demo.point_opt)).
  { apply (pcd_filter_other Demo.parts Demo.pcd (init Demo.point_opt)
             [[Num 0; Num 0; Num 0; Num 1; Num 0; Num 0; Num 0; Num 1]]).
    - exact demo_occupancies.
    - simpl. discriminate. }
  split; [exact H|]. intros [s' Hs']. rewrite H in Hs'. discriminate.
Qed.

Lemma pcd_filter_needs_volume_witness :
  pcd_filter_total Demo.parts Demo.pcd Demo.evaluating.
Proof.
  destruct (proj1 (pcd_filter_needs_volume Demo.parts Demo.pcd Demo.evaluating
                     demo_tree_answers))
    as [occupancies [feats [s' [_ [_ [H _]]]]]].
  - reflexivity.
  - right. intros voxels. simpl. discriminate.
  - exists s'. exact H.
Defined.

(** C7.  [query] on the small instance at a point outside the image whose
    depth is NaN: the first query point projects to [x = 2], and the
    prediction for it on the depth channel is NaN, the product of the mask
    value 0 and the classifier's NaN, where the comment on that product in
    [query] says that it is always set to 0. *)
Lemma outside_is_zero_fails :
  (exists p,
     intermediate_preds_list
       (snd (query Demo.parts Demo.nan_points Demo.calibs None None Demo.ready)) = [p] /\
     item3 (projection Demo.parts Demo.nan_points Demo.calibs None) 0 0 0 = Some (Num 2) /\
     item3 (projection Demo.parts Demo.nan_points Demo.calibs None) 0 1 0 = Some (Num 0) /\
     item3 p 0 3 0 = Some NaN) /\
  ~ outside_is_zero_as_stated Demo.parts Demo.nan_points Demo.calibs None None Demo.ready.
Proof.
  destruct demo_nan_preds as [p [Ep [H0 _]]].
  split; [exists p; repeat split; auto|].
  intros H.
  specialize (H _ (demo_query_returns Demo.nan_points None)
                0%nat 0%nat (Num 2) (Num 0) eq_refl eq_refl demo_outside p 3%nat NaN).
  rewrite Ep in H. specialize (H (or_introl eq_refl) H0). discriminate H.
Qed.

Lemma query_pairs_stacks_witness :
  exists p s3,
    query Demo.parts Demo.points Demo.calibs None None
      (snd (pcd_filter Demo.parts Demo.pcd
              (snd (filter Demo.parts Demo.images Demo.evaluating)))) = (Returns tt, s3) /\
    intermediate_preds_list s3 = [p] /\ preds s3 = Some p.
Proof.
  apply (proj1 (query_pairs_stacks Demo.parts Demo.points Demo.calibs None None)
           Demo.images Demo.pcd Demo.evaluating
           (snd (filter Demo.parts Demo.images Demo.evaluating))).
  - reflexivity.
  - reflexivity.
  - rewrite (pcd_filter_volume Demo.parts Demo.pcd
               (snd (filter Demo.parts Demo.images Demo.evaluating))
               [[Num 0; Num 0; Num 0; Num 1; Num 0; Num 0; Num 0; Num 1]]
               demo_occupancies); reflexivity.
Defined.

Lemma get_error_mean_witness :
  let s := snd (query Demo.parts Demo.points Demo.calibs None (Some Demo.gt) Demo.ready) in
  get_error Demo.parts s =
  (Returns (sum (map (fun p => error_term Demo.parts p Demo.gt) (intermediate_preds_list s))
            / INR (length (intermediate_preds_list s))), s).
Proof.
  intros s. apply (proj1 (get_error_mean Demo.parts s) Demo.gt).
  - intros E. apply (f_equal (@length _)) in E. discriminate E.
  - reflexivity.
Defined.

(** * Further properties of the methods *)

(** ** Last items and slices *)

Section LastFacts.

Context {A B : Type}.

Lemma last_item_skipn (n : nat) (l : list A) :
  (n < length l)%nat -> Py.last_item (skipn n l) = Py.last_item l.
Proof.
  revert n; induction l as [|x l IH]; intros n Hn; [simpl in Hn; lia|].
  destruct n as [|n]; [reflexivity|].
  simpl in Hn. simpl skipn. rewrite IH by lia.
  destruct l as [|y l]; [simpl in Hn; lia | reflexivity].
Qed.

Lemma last_item_slice_last (k : nat) (l : list A) :
  Py.last_item (Py.slice_last k l) = Py.last_item l.
Proof.
  destruct k as [|k]; [reflexivity|]. unfold Py.slice_last.
  destruct l as [|x l]; [reflexivity|].
  apply last_item_skipn. simpl. lia.
Qed.

Lemma slice_last_idem (k : nat) (l : list A) :
  Py.slice_last k (Py.slice_last k l) = Py.slice_last k l.
Proof.
  destruct k as [|k]; [reflexivity|]. unfold Py.slice_last.
  rewrite length_skipn.
  replace (length l - (length l - S k) - S k)%nat with O by lia. reflexivity.
Qed.

Lemma last_item_map (f : A -> B) (l : list A) :
  Py.last_item (map f l) = option_map f (Py.last_item l).
Proof.
  induction l as [|x l IH]; [reflexivity|].
  destruct l as [|y l]; [reflexivity|]. exact IH.
Qed.

Lemma last_item_combine (l : list A) (l' : list B) :
  length l = length l' ->
  Py.last_item (combine l l') =
  match Py.last_item l, Py.last_item l' with
  | Some a, Some b => Some (a, b)
  | _, _ => None
  end.
Proof.
  revert l'; induction l as [|x l IH]; intros [|y l'] H; try discriminate; [reflexivity|].
  injection H as H. specialize (IH l' H).
  destruct l as [|x2 l], l' as [|y2 l']; try discriminate; [reflexivity|].
  exact IH.
Qed.

End LastFacts.

(** ** [get_im_feat], [query] and the image stacks *)

(** X1.  After a returning [filter], [get_im_feat] returns the last stack of
    the hourglass, in training mode and in evaluation mode alike; when the
    hourglass gave no stack, [filter] can only have returned in training mode
    and [get_im_feat] raises IndexError. *)
Theorem get_im_feat_after_filter (C : components) (images : tensor4) (s s1 : net) :
  filter C images s = (Returns tt, s1) ->
  let stacks := fst (fst (image_filter C images)) in
  (forall f, Py.last_item stacks = Some f -> get_im_feat s1 = (Returns f, s1)) /\
  (Py.last_item stacks = None ->
   training s = true /\ get_im_feat s1 = (Raises IndexError, s1)).
Proof.
  intros Hf stacks. subst stacks. rewrite filter_run in Hf.
  destruct (image_filter C images) as [[feats tx] nx]. cbv zeta in Hf. simpl fst.
  unfold get_im_feat, bind, get, expect.
  destruct (training s) eqn:Et.
  - injection Hf as <-. simpl. split.
    + intros f ->. reflexivity.
    + intros ->. auto.
  - destruct (Py.last_item feats) as [f0|] eqn:El; [|discriminate].
    injection Hf as <-. simpl. split.
    + intros f E. injection E as <-. reflexivity.
    + discriminate.
Qed.

(** X2.  [query] replaces [im_feat_list] by its last items, as many as there
    are feature volumes, yet whatever its outcome [get_im_feat] answers after
    it as it did before it; after a returning [query] the list has as many
    items as the shorter of the two lists had. *)
Theorem query_keeps_last_stack (C : components) (points calibs : tensor3)
    (transforms labels : option tensor3) (s : net) :
  fst (get_im_feat (snd (query C points calibs transforms labels s))) =
    fst (get_im_feat s) /\
  (forall s', query C points calibs transforms labels s = (Returns tt, s') ->
     length (im_feat_list s') =
     Nat.min (length (im_feat_list s)) (length (voxel_feat_list s))).
Proof.
  split.
  - unfold get_im_feat, bind, get, expect. simpl.
    assert (E : Py.last_item
                  (im_feat_list (snd (query C points calibs transforms labels s))) =
                Py.last_item (im_feat_list s)).
    { destruct (skip_hourglass (opt s)) eqn:Hs; [destruct (tmpx s) eqn:Ht|].
      - rewrite query_run by (rewrite Ht; discriminate). cbv zeta.
        destruct (Py.last_item (query_preds _ _ _ _ _)); simpl;
          apply last_item_slice_last.
      - rewrite (query_run_no_tmpx C _ _ _ _ _ Hs Ht). simpl.
        destruct labels; reflexivity.
      - rewrite query_run by (rewrite Hs; discriminate). cbv zeta.
        destruct (Py.last_item (query_preds _ _ _ _ _)); simpl;
          apply last_item_slice_last. }
    rewrite E. destruct (Py.last_item (im_feat_list s)); reflexivity.
  - intros s' Hq. destruct (query_returns C _ _ _ _ _ _ Hq) as [ps [p [Eps [-> _]]]].
    simpl. rewrite length_slice_last.
    destruct (voxel_feat_list s) as [|v vs] eqn:Ev; [|cbn [length]; lia].
    exfalso. apply (f_equal (@length _)) in Eps.
    unfold query_preds, paired_stacks in Eps.
    rewrite length_map, length_combine, Ev, length_app in Eps. simpl in Eps. lia.
Qed.

(** X3.  A returning [query] is idempotent: the same call on the object it
    left returns again and leaves the same object, with the same predictions. *)
Theorem query_idempotent (C : components) (points calibs : tensor3)
    (transforms labels : option tensor3) (s s' : net) :
  query C points calibs transforms labels s = (Returns tt, s') ->
  query C points calibs transforms labels s' = (Returns tt, s').
Proof.
  intros Hq. destruct (query_returns C _ _ _ _ _ _ Hq) as [ps [p [Eps [-> Ht]]]].
  rewrite query_run by exact Ht. cbv zeta.
  assert (E : query_preds C points calibs transforms
                (mkNet (opt s) (training s)
                   (Py.slice_last (length (voxel_feat_list s)) (im_feat_list s))
                   (tmpx s) (normx s) (voxel_feat_list s) (ps ++ [p]) (Some p)
                   (TitmouseVolumeNet.labels (with_labels labels s))) = ps ++ [p]).
  { rewrite <- Eps. unfold query_preds, paired_stacks, tmpx_feature. simpl.
    rewrite slice_last_idem. reflexivity. }
  rewrite E, last_item_app. simpl. rewrite slice_last_idem.
  destruct labels; reflexivity.
Qed.

(** X4.  Labels given to one [query] stay for the next: after a returning
    [query] with labels and a later returning [query] without, [self.labels]
    is still the labels of the first, and [get_error] returns the mean error
    of the later predictions against them. *)
Theorem labels_persist (C : components) (points calibs points' calibs' : tensor3)
    (transforms transforms' : option tensor3) (lab : tensor3) (s s1 s2 : net) :
  query C points calibs transforms (Some lab) s = (Returns tt, s1) ->
  query C points' calibs' transforms' None s1 = (Returns tt, s2) ->
  labels s2 = Some lab /\
  get_error C s2 = (Returns (mean_error C lab (intermediate_preds_list s2)), s2).
Proof.
  intros H1 H2.
  destruct (query_returns C _ _ _ _ _ _ H1) as [ps [p [_ [-> _]]]].
  destruct (query_returns C _ _ _ _ _ _ H2) as [qs [q [_ [-> _]]]].
  simpl. split; [reflexivity|].
  rewrite get_error_run. simpl.
  destruct (qs ++ [q]) eqn:E; [destruct qs; discriminate | reflexivity].
Qed.

(** X5.  [query] on an object without image stacks or without feature
    volumes, as before [filter] or [pcd_filter], does not return.  With
    [skip_hourglass] on and [self.tmpx] still None it raises TypeError at
    the [tmpx] feature, having assigned the labels and nothing else: the
    list of intermediate predictions is as it was.  Otherwise it raises
    IndexError: it has assigned the labels and emptied
    [intermediate_preds_list] but not assigned [self.preds], and
    [get_error] after it raises ZeroDivisionError. *)
Theorem query_without_stacks (C : components) (points calibs : tensor3)
    (transforms labels : option tensor3) (s : net) :
  im_feat_list s = [] \/ voxel_feat_list s = [] ->
  match skip_hourglass (opt s), tmpx s with
  | true, None =>
      query C points calibs transforms labels s =
        (Raises TypeError, with_labels labels s)
  | _, _ =>
      exists s',
        query C points calibs transforms labels s = (Raises IndexError, s') /\
        intermediate_preds_list s' = [] /\
        preds s' = preds s /\
        TitmouseVolumeNet.labels s' =
          match labels with Some l => Some l | None => TitmouseVolumeNet.labels s end /\
        get_error C s' = (Raises ZeroDivisionError, s')
  end.
Proof.
  intros He.
  assert (E : query_preds C points calibs transforms s = []).
  { unfold query_preds, paired_stacks.
    destruct He as [-> | ->]; [|rewrite combine_nil; reflexivity].
    destruct (length (voxel_feat_list s)); reflexivity. }
  assert (Hidx : (skip_hourglass (opt s) = true -> tmpx s <> None) ->
           exists s',
             query C points calibs transforms labels s = (Raises IndexError, s') /\
             intermediate_preds_list s' = [] /\
             preds s' = preds s /\
             TitmouseVolumeNet.labels s' =
               match labels with
               | Some l => Some l
               | None => TitmouseVolumeNet.labels s
               end /\
             get_error C s' = (Raises ZeroDivisionError, s')).
  { intros Ht. rewrite query_run by exact Ht. cbv zeta.
    rewrite E. simpl. eexists. split; [reflexivity|]. simpl.
    split; [reflexivity|]. split; [reflexivity|].
    split; [destruct labels; reflexivity|].
    rewrite get_error_run. reflexivity. }
  destruct (skip_hourglass (opt s)) eqn:Hs.
  - destruct (tmpx s) as [t|] eqn:Ht.
    + apply Hidx. intros _. discriminate.
    + apply query_run_no_tmpx; assumption.
  - apply Hidx. intros Hc. discriminate Hc.
Qed.

(** ** What [filter] and [pcd_filter] leave alone *)

Ltac fields :=
  cbn [opt training im_feat_list tmpx normx voxel_feat_list intermediate_preds_list
       preds labels set_im_feat_list set_tmpx set_normx set_voxel_feat_list
       set_intermediate_preds_list set_preds set_labels fst snd] in *.

Lemma filter_frame (C : components) (images : tensor4) (s : net) :
  let s1 := snd (filter C images s) in
  opt s1 = opt s /\ training s1 = training s /\
  voxel_feat_list s1 = voxel_feat_list s /\
  intermediate_preds_list s1 = intermediate_preds_list s /\
  preds s1 = preds s /\ labels s1 = labels s.
Proof.
  cbv zeta. rewrite filter_run.
  destruct (image_filter C images) as [[feats tx] nx]. cbv zeta.
  destruct (training s) eqn:Et; [fields; auto 10|].
  destruct (Py.last_item feats); fields; auto 10.
Qed.

Lemma pcd_filter_frame (C : components) (pcd : tensor3) (s : net) :
  let s2 := snd (pcd_filter C pcd s) in
  opt s2 = opt s /\ training s2 = training s /\
  im_feat_list s2 = im_feat_list s /\ tmpx s2 = tmpx s /\ normx s2 = normx s /\
  intermediate_preds_list s2 = intermediate_preds_list s /\
  preds s2 = preds s /\ labels s2 = labels s.
Proof.
  cbv zeta. rewrite pcd_filter_run.
  destruct (occupancies_of _ _); [|fields; auto 10].
  destruct (String.eqb _ _); [|fields; auto 10]. cbv zeta.
  destruct (training s) eqn:Et; [fields; auto 10|].
  destruct (Py.last_item _); fields; auto 10.
Qed.

(** In evaluation mode [filter] and [pcd_filter] leave one stack each. *)
Lemma eval_stacks (C : components) (images : tensor4) (pcd : tensor3) (s s1 s2 : net) :
  training s = false ->
  filter C images s = (Returns tt, s1) ->
  pcd_filter C pcd s1 = (Returns tt, s2) ->
  exists f v, im_feat_list s2 = [f] /\ voxel_feat_list s2 = [v].
Proof.
  intros Ht Hf Hp.
  pose proof (filter_frame C images s) as Hfr. rewrite Hf in Hfr. fields.
  destruct Hfr as [_ [Etr _]]. rewrite Ht in Etr.
  pose proof (pcd_filter_frame C pcd s1) as Hpr. rewrite Hp in Hpr. fields.
  destruct Hpr as [_ [_ [Eim _]]].
  rewrite filter_run in Hf.
  destruct (image_filter C images) as [[feats tx] nx]. cbv zeta in Hf.
  rewrite Ht in Hf.
  destruct (Py.last_item feats) as [f|]; [|discriminate].
  rewrite pcd_filter_run in Hp.
  destruct (occupancies_of _ _) as [occ|e]; [|discriminate].
  destruct (String.eqb _ _); [|discriminate].
  cbv zeta in Hp. rewrite Etr in Hp.
  destruct (Py.last_item (VolumeEncoder C _)) as [v|]; [|discriminate].
  exists f, v. rewrite Eim.
  injection Hf as <-. injection Hp as <-. fields. auto.
Qed.

(** X6.  [filter] and [pcd_filter] do not depend on each other: when
    [filter] and then [pcd_filter] return, so do [pcd_filter] and then
    [filter], and they leave the same object. *)
Theorem filter_pcd_filter_commute (C : components) (images : tensor4) (pcd : tensor3)
    (s s1 s2 : net) :
  filter C images s = (Returns tt, s1) ->
  pcd_filter C pcd s1 = (Returns tt, s2) ->
  exists s1',
    pcd_filter C pcd s = (Returns tt, s1') /\
    filter C images s1' = (Returns tt, s2).
Proof.
  intros Hf Hp. destruct s as [o tr ims tx0 nx0 vox ips pr lab].
  rewrite filter_run in Hf. rewrite pcd_filter_run in Hp.
  destruct (image_filter C images) as [[feats tx] nx] eqn:Ei. cbv zeta in Hf. fields.
  destruct tr.
  - injection Hf as <-. unfold grid_points in Hp. fields.
    destruct (occupancies_of _ _) as [occ|e] eqn:Eocc; [|discriminate].
    destruct (String.eqb (feat_type o) "volume") eqn:Es; [|discriminate].
    cbv zeta in Hp. injection Hp as <-.
    eexists. split.
    + rewrite pcd_filter_run. unfold grid_points. fields. rewrite Eocc, Es. reflexivity.
    + rewrite filter_run, Ei. reflexivity.
  - destruct (Py.last_item feats) as [f|] eqn:Ef; [|discriminate].
    injection Hf as <-. unfold grid_points in Hp. fields.
    destruct (occupancies_of _ _) as [occ|e] eqn:Eocc; [|discriminate].
    destruct (String.eqb (feat_type o) "volume") eqn:Es; [|discriminate].
    cbv zeta in Hp.
    destruct (Py.last_item (VolumeEncoder C _)) as [v|] eqn:Ev; [|discriminate].
    injection Hp as <-.
    eexists. split.
    + rewrite pcd_filter_run. unfold grid_points. fields. rewrite Eocc, Es. cbv zeta.
      rewrite Ev. reflexivity.
    + rewrite filter_run, Ei. cbv zeta. fields. rewrite Ef. reflexivity.
Qed.

(** X7.  [forward] without labels, on an object whose labels were never
    assigned, does not return although all the sub-networks answer:
    [get_error] raises AttributeError after [query] has stored the
    predictions, so [self.preds] holds the last intermediate prediction. *)
Theorem forward_without_labels (C : components) (images : tensor4)
    (pcd points calibs : tensor3) (transforms : option tensor3) (s : net) :
  labels s = None ->
  feat_type (opt s) = "volume"%string ->
  tree_answers_cloud C (grid_points s) (Tensor.transpose12 pcd) ->
  fst (fst (image_filter C images)) <> [] ->
  (forall voxels, VolumeEncoder C voxels <> []) ->
  exists s' p,
    forward C images pcd points calibs transforms None s =
      (Raises (AttributeError "labels"), s') /\
    preds s' = Some p /\
    Py.last_item (intermediate_preds_list s') = Some p.
Proof.
  intros Hl Hf Hr Hi He. rewrite forward_run.
  pose proof (filter_frame C images s) as Hfr.
  destruct (filter_succeeds C images s Hi) as [s1 [E1 [Ho [_ [Him Htx]]]]].
  rewrite E1 in *. fields. destruct Hfr as [_ [_ [_ [_ [_ Hl1]]]]].
  rewrite <- Ho in Hf. unfold grid_points in Hr. rewrite <- Ho in Hr.
  pose proof (pcd_filter_frame C pcd s1) as Hpr.
  destruct (pcd_filter_succeeds C pcd s1 Hr Hf He) as [s2 [E2 [_ [Him2 [Htx2 Hv]]]]].
  rewrite E2 in *. fields. destruct Hpr as [_ [_ [_ [_ [_ [_ [_ Hl2]]]]]]].
  rewrite <- Him2 in Him. rewrite <- Htx2 in Htx.
  destruct (query_succeeds C points calibs transforms None s2 (fun _ => Htx) Him Hv)
    as [s3 Hq].
  rewrite Hq. destruct (query_returns C _ _ _ _ _ _ Hq) as [ps [p [_ [Es3 _]]]].
  rewrite get_error_run, Es3. fields. unfold with_labels. rewrite Hl2, Hl1, Hl.
  destruct (ps ++ [p]) eqn:El; [destruct ps; discriminate|].
  eexists; exists p. split; [reflexivity|]. fields.
  split; [reflexivity|]. rewrite <- El. apply last_item_app.
Qed.

(** X8.  In evaluation mode the error that [forward] returns is the error
    term of the returned prediction against the labels: there is one
    intermediate prediction and the mean is over it alone. *)
Theorem eval_forward_error (C : components) (images : tensor4)
    (pcd points calibs : tensor3) (transforms labels : option tensor3)
    (s s' : net) (res : option tensor3) (error : R) :
  training s = false ->
  forward C images pcd points calibs transforms labels s = (Returns (res, error), s') ->
  exists p lab,
    res = Some p /\ intermediate_preds_list s' = [p] /\
    TitmouseVolumeNet.labels s' = Some lab /\
    error = error_term C p lab.
Proof.
  intros Ht H. rewrite forward_run in H.
  destruct (filter C images s) as [[[]|e] s1] eqn:Hf; [|discriminate].
  destruct (pcd_filter C pcd s1) as [[[]|e] s2] eqn:Hp; [|discriminate].
  destruct (query C points calibs transforms labels s2) as [[[]|e] s3] eqn:Hq;
    [|discriminate].
  destruct (eval_stacks C images pcd s s1 s2 Ht Hf Hp) as [f [v [Ef Ev]]].
  destruct (query_returns C _ _ _ _ _ _ Hq) as [ps [p [Eps [Es3 _]]]].
  assert (Eone : ps = []).
  { apply (f_equal (@length _)) in Eps. unfold query_preds, paired_stacks in Eps.
    rewrite length_map, Ef, Ev, length_app in Eps. simpl in Eps.
    destruct ps; [reflexivity | simpl in Eps; lia]. }
  subst ps. rewrite get_error_run, Es3 in H. fields. simpl app in H.
  destruct (TitmouseVolumeNet.labels (with_labels labels s2)) as [lab|] eqn:El;
    [|discriminate].
  injection H as <- <- <-. exists p, lab. fields.
  repeat split; auto.
  unfold mean_error, sum. simpl. lra.
Qed.

(** The last pair of stacks that [query] reads. *)
Lemma last_pair_pred (C : components) (points calibs : tensor3)
    (transforms labels : option tensor3) (s s' : net) :
  query C points calibs transforms labels s = (Returns tt, s') ->
  (length (voxel_feat_list s) <= length (im_feat_list s))%nat ->
  let xyz := projection C points calibs transforms in
  let xy := Tensor.slice1 0 2 xyz in
  let vgrid := Tensor.as_grid xyz in
  exists f v,
    Py.last_item (im_feat_list s) = Some f /\
    Py.last_item (voxel_feat_list s) = Some v /\
    preds s' =
      Some (query_pred C xy (Tensor.slice1 2 3 xyz) vgrid (length vgrid)
              (Tensor.size1 vgrid) (in_img_of xy) (tmpx_feature C xy s) (f, v)).
Proof.
  intros Hq Hle xyz xy vgrid.
  destruct (query_returns C _ _ _ _ _ _ Hq) as [ps [p [Eps [-> _]]]]. fields.
  pose proof (last_item_app ps p) as Hlast. rewrite <- Eps in Hlast.
  unfold query_preds in Hlast. fold xyz xy vgrid in Hlast.
  rewrite last_item_map in Hlast. unfold paired_stacks in Hlast.
  rewrite last_item_combine, last_item_slice_last in Hlast.
  - destruct (Py.last_item (im_feat_list s)) as [f|]; [|discriminate].
    destruct (Py.last_item (voxel_feat_list s)) as [v|]; [|discriminate].
    exists f, v. simpl in Hlast. injection Hlast as <-. auto.
  - rewrite length_slice_last.
    destruct (length (voxel_feat_list s)) eqn:Ek; [|lia].
    apply length_zero_iff_nil in Ek.
    apply (f_equal (@length _)) in Eps. unfold query_preds, paired_stacks in Eps.
    rewrite length_map, Ek, combine_nil, length_app in Eps. simpl in Eps. lia.
Qed.

(** X9.  When there are no more feature volumes than image stacks, the
    prediction that a returning [query] leaves in [self.preds] comes from the
    last image stack, the output stack of the hourglass, paired with the last
    feature volume. *)
Theorem preds_from_last_stacks (C : components) (points calibs : tensor3)
    (transforms labels : option tensor3) (s s' : net) :
  query C points calibs transforms labels s = (Returns tt, s') ->
  (length (voxel_feat_list s) <= length (im_feat_list s))%nat ->
  let xyz := projection C points calibs transforms in
  let xy := Tensor.slice1 0 2 xyz in
  let vgrid := Tensor.as_grid xyz in
  exists f v,
    Py.last_item (im_feat_list s) = Some f /\
    Py.last_item (voxel_feat_list s) = Some v /\
    preds s' =
      Some (query_pred C xy (Tensor.slice1 2 3 xyz) vgrid (length vgrid)
              (Tensor.size1 vgrid) (in_img_of xy) (tmpx_feature C xy s) (f, v)).
Proof.
  intros Hq Hle. exact (last_pair_pred C points calibs transforms labels s s' Hq Hle).
Qed.

(** ** The occupancy rows as sets of cells *)

Lemma forallb_same_members {A : Type} (f : A -> bool) (l l' : list A) :
  (forall a, In a l <-> In a l') -> forallb f l = forallb f l'.
Proof.
  intros H. destruct (forallb f l) eqn:E, (forallb f l') eqn:E'; auto.
  - rewrite forallb_forall in E.
    assert (forallb f l' = true) by (apply forallb_forall; intros a Ha; apply E, H, Ha).
    congruence.
  - rewrite forallb_forall in E'.
    assert (forallb f l = true) by (apply forallb_forall; intros a Ha; apply E', H, Ha).
    congruence.
Qed.

Lemma existsb_same_members {A : Type} (f : A -> bool) (l l' : list A) :
  (forall a, In a l <-> In a l') -> existsb f l = existsb f l'.
Proof.
  intros H. destruct (existsb f l) eqn:E, (existsb f l') eqn:E'; auto.
  - apply existsb_exists in E as [a [Ha Hf]].
    assert (existsb f l' = true) by (apply existsb_exists; exists a; split; [apply H|]; auto).
    congruence.
  - apply existsb_exists in E' as [a [Ha Hf]].
    assert (existsb f l = true) by (apply existsb_exists; exists a; split; [apply H|]; auto).
    congruence.
Qed.

Lemma hit_incl (tree : tensor1 -> option nat) (points points' : tensor2) :
  (forall p, In p points -> In p points') ->
  forall i, hit tree points i -> hit tree points' i.
Proof.
  intros H i [p [Hp E]]. exists p. auto.
Qed.

Lemma tree_answers_same_members (tree : tensor1 -> option nat)
    (points points' : tensor2) (idx idx' : list nat) :
  (forall p, In p points <-> In p points') ->
  tree_answers tree points = Some idx ->
  tree_answers tree points' = Some idx' ->
  forall i, In i idx <-> In i idx'.
Proof.
  intros H E E' i.
  destruct (tree_answers_inv tree _ _ E) as [_ [Hi _]].
  destruct (tree_answers_inv tree _ _ E') as [_ [Hi' _]].
  rewrite Hi, Hi'. split; apply hit_incl; intros p; apply H.
Qed.

(** A cloud that the tree answers has no point that the tree refuses. *)
Lemma tree_answers_refused (tree : tensor1 -> option nat)
    (points points' : tensor2) (idx : list nat) :
  (forall p, In p points' -> In p points) ->
  tree_answers tree points = Some idx ->
  tree_answers tree points' = None -> False.
Proof.
  intros H E E'. apply tree_answers_none in E' as [p [Hp Hn]].
  destruct (tree_answers_inv tree _ _ E) as [_ [_ Ha]].
  destruct (Ha p (H p Hp)) as [i [Ei _]]. congruence.
Qed.

(** X10.  The occupancy row of a batch element depends on its points as a
    set: clouds with the same points, in any order and with any repetition,
    give the same outcome and the same row; and a cloud that contains another
    occupies every cell that the other occupies. *)
Theorem occupancy_row_of_point_set (kdtree : tensor2 -> tensor1 -> option nat)
    (grid points points' : tensor2) :
  ((forall p, In p points <-> In p points') ->
   occupancy_row kdtree grid points = occupancy_row kdtree grid points') /\
  ((forall p, In p points -> In p points') ->
   forall row row' i,
     occupancy_row kdtree grid points = Returns row ->
     occupancy_row kdtree grid points' = Returns row' ->
     nth_error row i = Some (Num 1) -> nth_error row' i = Some (Num 1)).
Proof.
  split.
  - intros H. unfold occupancy_row.
    destruct (tree_answers (kdtree grid) points) as [idx|] eqn:E,
             (tree_answers (kdtree grid) points') as [idx'|] eqn:E'.
    + pose proof (tree_answers_same_members _ _ _ _ _ H E E') as Hq.
      rewrite (forallb_same_members _ idx idx' Hq).
      destruct (forallb _ idx'); [|reflexivity]. f_equal.
      apply nth_error_ext. intros j. rewrite !nth_error_index_put.
      destruct (nth_error (Tensor.new_zeros (length grid)) j); [|reflexivity].
      rewrite (existsb_same_members _ idx idx' Hq). reflexivity.
    + exfalso. apply (tree_answers_refused _ _ _ _ (fun p => proj2 (H p)) E E').
    + exfalso. apply (tree_answers_refused _ _ _ _ (fun p => proj1 (H p)) E' E).
    + reflexivity.
  - intros H row row' i Hr Hr' Hi.
    apply occupancy_row_inv in Hr as [idx [E [_ ->]]].
    apply occupancy_row_inv in Hr' as [idx' [E' [_ ->]]].
    assert (Hlt : (i < length grid)%nat).
    { rewrite <- (length_marked_row (length grid) idx).
      apply nth_error_Some. rewrite Hi. discriminate. }
    apply (proj1 (nth_error_marked_row _ idx i Hlt)) in Hi.
    apply (proj1 (nth_error_marked_row _ idx' i Hlt)).
    destruct (tree_answers_inv _ _ _ E) as [_ [Hq _]].
    destruct (tree_answers_inv _ _ _ E') as [_ [Hq' _]].
    apply Hq'. apply (hit_incl _ _ _ H). apply Hq. exact Hi.
Qed.

Lemma sum_new_zeros (n : nat) : sum (map Float.value (Tensor.new_zeros n)) = 0.
Proof.
  unfold Tensor.new_zeros, sum. induction n as [|n IH]; simpl; [reflexivity|].
  rewrite IH. lra.
Qed.

Lemma sum_binary_nonneg (row : tensor1) :
  Forall binary row -> 0 <= sum (map Float.value row).
Proof.
  intros H. induction H as [|x row [-> | ->] H IH]; unfold sum in *; simpl; lra.
Qed.

(** Marking one cell adds at most one to the number of occupied cells, and
    leaves at least one when the cell is a position of the row. *)
Lemma sum_set_item (i : nat) (row : tensor1) :
  Forall binary row ->
  sum (map Float.value row) <= sum (map Float.value (Tensor.set_item i (Num 1) row))
    <= sum (map Float.value row) + 1 /\
  ((i < length row)%nat -> 1 <= sum (map Float.value (Tensor.set_item i (Num 1) row))).
Proof.
  intros H. revert i; induction H as [|x row Hx H IH]; intros i.
  - destruct i; simpl; split; try lra; intros Hi; simpl in Hi; lia.
  - pose proof (sum_binary_nonneg row H) as Hnn.
    destruct i as [|i]; simpl.
    + unfold sum in *; simpl. destruct Hx as [-> | ->]; simpl; split; intros; lra.
    + destruct (IH i) as [Hb H1]. unfold sum in *; simpl.
      destruct Hx as [-> | ->]; simpl; split; try lra; intros Hi;
        assert (Hi' : (i < length row)%nat) by lia; specialize (H1 Hi'); lra.
Qed.

Lemma sum_index_put (idx : list nat) (row : tensor1) :
  Forall binary row ->
  Forall binary (Tensor.index_put row idx (Num 1)) /\
  sum (map Float.value row) <= sum (map Float.value (Tensor.index_put row idx (Num 1)))
    <= sum (map Float.value row) + INR (length idx).
Proof.
  unfold Tensor.index_put. revert row; induction idx as [|i idx IH]; intros row H.
  - simpl. split; [exact H | lra].
  - cbn [fold_left length]. rewrite S_INR.
    destruct (IH (Tensor.set_item i (Num 1) row) (set_item_binary i row H)) as [Hb Hs].
    destruct (sum_set_item i row H) as [H1 _].
    split; [exact Hb | lra].
Qed.

(** X11.  In an occupancy row every cell is 0 or 1 and the number of
    occupied cells, the sum of the row, is at most the number of points of
    the batch element, so a cloud without points leaves the row at zero, and
    it is at least one as soon as there is a point. *)
Theorem occupancy_row_count (kdtree : tensor2 -> tensor1 -> option nat)
    (grid points : tensor2) (row : tensor1) :
  occupancy_row kdtree grid points = Returns row ->
  Forall binary row /\
  0 <= sum (map Float.value row) <= INR (length points) /\
  (points <> [] -> 1 <= sum (map Float.value row)).
Proof.
  intros H. apply occupancy_row_inv in H as [idx [E [Hin ->]]].
  destruct (tree_answers_inv _ _ _ E) as [Hlen _].
  pose proof (new_zeros_binary (length grid)) as Hz.
  unfold marked_row.
  destruct (sum_index_put idx _ Hz) as [Hb Hs].
  rewrite sum_new_zeros, Hlen in Hs.
  split; [exact Hb|]. split; [lra|].
  intros Hne. destruct points as [|p points]; [congruence|].
  destruct idx as [|i idx]; [discriminate Hlen|].
  assert (Hp : (i < length (Tensor.new_zeros (length grid)))%nat).
  { unfold Tensor.new_zeros. rewrite repeat_length. apply Hin. left; reflexivity. }
  unfold Tensor.index_put. cbn [fold_left].
  destruct (sum_set_item i _ Hz) as [_ H1]. specialize (H1 Hp).
  destruct (sum_index_put idx
              (Tensor.set_item i (Num 1) (Tensor.new_zeros (length grid)))
              (set_item_binary _ _ Hz)) as [_ Hs2].
  unfold Tensor.index_put in Hs2. lra.
Qed.

(** ** Labels, modes and predictions *)

(** X12.  The labels given to [query] have no part in its predictions:
    whatever its outcome, two calls that differ only in their labels leave the
    same [intermediate_preds_list] and the same [self.preds]. *)
Theorem query_preds_ignore_labels (C : components) (points calibs : tensor3)
    (transforms labels labels' : option tensor3) (s : net) :
  let s1 := snd (query C points calibs transforms labels s) in
  let s2 := snd (query C points calibs transforms labels' s) in
  fst (query C points calibs transforms labels s) =
    fst (query C points calibs transforms labels' s) /\
  intermediate_preds_list s1 = intermediate_preds_list s2 /\
  preds s1 = preds s2.
Proof.
  cbv zeta.
  destruct (skip_hourglass (opt s)) eqn:Hs; [destruct (tmpx s) eqn:Ht|].
  - rewrite !query_run by (rewrite Ht; discriminate). cbv zeta.
    destruct (Py.last_item (query_preds _ _ _ _ _)); fields; auto.
  - rewrite !(query_run_no_tmpx C _ _ _ _ _ Hs Ht). fields.
    destruct labels, labels'; auto.
  - rewrite !query_run by (rewrite Hs; discriminate). cbv zeta.
    destruct (Py.last_item (query_preds _ _ _ _ _)); fields; auto.
Qed.

(** X13.  Only the last stacks matter for [self.preds].  With no more
    feature volumes than image stacks, a returning [query] over all the
    stacks leaves the same [self.preds] as [query] on the object that keeps
    only the last image stack and the last feature volume, which is what
    [filter] and [pcd_filter] keep in evaluation mode; that [query] returns
    as well, with this prediction as its only intermediate prediction. *)
Theorem preds_from_last_stacks_only (C : components) (points calibs : tensor3)
    (transforms labels : option tensor3) (s s1 : net) (f : tensor4) (v : tensor5) :
  Py.last_item (im_feat_list s) = Some f ->
  Py.last_item (voxel_feat_list s) = Some v ->
  (length (voxel_feat_list s) <= length (im_feat_list s))%nat ->
  query C points calibs transforms labels s = (Returns tt, s1) ->
  exists s2 p,
    query C points calibs transforms labels
      (set_voxel_feat_list [v] (set_im_feat_list [f] s)) = (Returns tt, s2) /\
    preds s1 = Some p /\
    intermediate_preds_list s2 = [p] /\
    preds s2 = Some p.
Proof.
  intros Hf Hv Hle Hq.
  destruct (last_pair_pred C _ _ _ _ _ _ Hq Hle) as [f0 [v0 [Ef [Ev Ep]]]].
  rewrite Hf in Ef. injection Ef as <-. rewrite Hv in Ev. injection Ev as <-.
  destruct (query_returns C _ _ _ _ _ _ Hq) as [_ [_ [_ [_ Ht]]]].
  rewrite query_run by (fields; exact Ht). cbv zeta.
  unfold query_preds, paired_stacks, tmpx_feature. fields.
  cbn [length Py.slice_last Nat.sub skipn combine map Py.last_item].
  eexists; eexists. split; [reflexivity|]. fields.
  split; [exact Ep|]. split; reflexivity.
Qed.

(** ** The mask outside the image *)

(** X14.  For a query point whose projected image coordinates are
    not both in [-1, 1], every value that a returning [query] predicts for
    the point, in every intermediate prediction and in [self.preds], is the
    product of 0 and the classifier's output for the point, which is exactly
    0 whenever that output is not NaN. *)
Theorem query_outside_image_is_zero (C : components) (points calibs : tensor3)
    (transforms labels : option tensor3) (s s' : net) :
  query C points calibs transforms labels s = (Returns tt, s') ->
  let xyz := projection C points calibs transforms in
  forall pred,
    In pred (intermediate_preds_list s') \/ preds s' = Some pred ->
    exists stacks,
      In stacks (paired_stacks s) /\
      forall b n x y,
        item3 xyz b 0 n = Some x -> item3 xyz b 1 n = Some y ->
        in_image x y = false ->
        forall c v,
          item3 pred b c n = Some v ->
          exists w,
            item3 (surface_classifier C (classifier_input C xyz s stacks)) b c n
              = Some w /\
            v = Float.mul (Num 0) w /\
            (w <> NaN -> v = Num 0).
Proof.
  intros Hq xyz pred Hin.
  destruct (query_returns C _ _ _ _ _ _ Hq) as [ps [p [Eps [-> _]]]].
  simpl in Hin.
  assert (Hp : In pred (query_preds C points calibs transforms s)).
  { rewrite Eps. destruct Hin as [Hin|Hin]; [exact Hin|].
    injection Hin as <-. apply in_or_app; right; left; reflexivity. }
  destruct (query_preds_inv C _ _ _ _ _ Hp) as [stacks [Hs ->]]. fold xyz.
  exists stacks. split; [exact Hs|].
  intros b n x y Hx Hy Hout c v Hv.
  destruct (item3_query_pred C xyz s stacks b c n v Hv) as [x' [y' [u [Ex [Ey [Hu ->]]]]]].
  rewrite Hx in Ex. injection Ex as <-. rewrite Hy in Ey. injection Ey as <-.
  rewrite Hout. exists (Sigmoid u).
  split; [rewrite item3_surface_classifier, Hu; reflexivity|].
  split; [reflexivity|].
  intros Hn. destruct u as [r| | |]; simpl in *; try congruence; f_equal; lra.
Qed.

(** ** The further properties on the small instance *)

Lemma demo_filter_returns (s : net) :
  filter Demo.parts Demo.images s =
  (Returns tt, snd (filter Demo.parts Demo.images s)).
Proof.
  rewrite filter_run. simpl. destruct (training s); reflexivity.
Qed.

Lemma demo_pcd_filter_evaluating (s : net) :
  opt s = Demo.volume_opt -> training s = false ->
  pcd_filter Demo.parts Demo.pcd s =
  (Returns tt,
   set_voxel_feat_list
     [voxel_input 2 [[Num 0; Num 0; Num 0; Num 1; Num 0; Num 0; Num 0; Num 1]]] s).
Proof.
  intros Ho Ht.
  assert (E : occupancies_of (kdtree_query Demo.parts) (grid_points s)
                (Tensor.transpose12 Demo.pcd) =
              Returns [[Num 0; Num 0; Num 0; Num 1; Num 0; Num 0; Num 0; Num 1]]).
  { unfold grid_points. rewrite Ho. exact demo_occupancies. }
  rewrite (pcd_filter_volume Demo.parts Demo.pcd s _ E) by (rewrite Ho; reflexivity).
  cbv zeta. rewrite Ht, Ho. reflexivity.
Qed.

Lemma demo_pcd_filter_returns (s : net) :
  opt s = Demo.volume_opt ->
  pcd_filter Demo.parts Demo.pcd s =
  (Returns tt, snd (pcd_filter Demo.parts Demo.pcd s)).
Proof.
  intros Ho.
  assert (E : occupancies_of (kdtree_query Demo.parts) (grid_points s)
                (Tensor.transpose12 Demo.pcd) =
              Returns [[Num 0; Num 0; Num 0; Num 1; Num 0; Num 0; Num 0; Num 1]]).
  { unfold grid_points. rewrite Ho. exact demo_occupancies. }
  rewrite (pcd_filter_volume Demo.parts Demo.pcd s _ E) by (rewrite Ho; reflexivity).
  cbv zeta. destruct (training s); reflexivity.
Qed.

Lemma demo_forward_returns :
  exists res error s',
    forward Demo.parts Demo.images Demo.pcd Demo.points Demo.calibs None
            (Some Demo.gt) Demo.evaluating = (Returns (res, error), s').
Proof.
  rewrite forward_run, (demo_filter_returns Demo.evaluating).
  rewrite (demo_pcd_filter_evaluating
             (snd (filter Demo.parts Demo.images Demo.evaluating)) eq_refl eq_refl).
  match goal with
  | |- context [query ?C ?a ?b ?c ?d ?s] =>
      destruct (query_succeeds C a b c d s) as [s3 Hq];
        [intros _; simpl; discriminate | simpl; discriminate | simpl; discriminate |]
  end.
  rewrite Hq. destruct (query_returns _ _ _ _ _ _ _ Hq) as [ps [p [_ [Es3 _]]]].
  rewrite get_error_run, Es3. fields.
  destruct (ps ++ [p]) eqn:El; [destruct ps; discriminate|].
  simpl. eexists; eexists; eexists; reflexivity.
Qed.

Lemma get_im_feat_after_filter_witness :
  get_im_feat (snd (filter Demo.parts Demo.images Demo.evaluating)) =
  (Returns Demo.images, snd (filter Demo.parts Demo.images Demo.evaluating)).
Proof.
  apply (get_im_feat_after_filter Demo.parts Demo.images Demo.evaluating);
    reflexivity.
Defined.

Lemma query_keeps_last_stack_witness :
  length (im_feat_list
            (snd (query Demo.parts Demo.points Demo.calibs None None Demo.ready))) = 1%nat.
Proof.
  apply (query_keeps_last_stack Demo.parts Demo.points Demo.calibs None None Demo.ready).
  reflexivity.
Defined.

Lemma query_idempotent_witness :
  let s' := snd (query Demo.parts Demo.points Demo.calibs None None Demo.ready) in
  query Demo.parts Demo.points Demo.calibs None None s' = (Returns tt, s').
Proof.
  apply (query_idempotent Demo.parts Demo.points Demo.calibs None None Demo.ready).
  reflexivity.
Defined.

Lemma labels_persist_witness :
  let s1 := snd (query Demo.parts Demo.points Demo.calibs None (Some Demo.gt) Demo.ready) in
  let s2 := snd (query Demo.parts Demo.points Demo.calibs None None s1) in
  labels s2 = Some Demo.gt.
Proof.
  intros s1 s2.
  apply (labels_persist Demo.parts Demo.points Demo.calibs Demo.points Demo.calibs
           None None Demo.gt Demo.ready s1 s2); reflexivity.
Defined.

Lemma query_without_stacks_witness :
  exists s',
    query Demo.parts Demo.points Demo.calibs None (Some Demo.gt) (init Demo.volume_opt) =
      (Raises IndexError, s') /\
    labels s' = Some Demo.gt /\
    get_error Demo.parts s' = (Raises ZeroDivisionError, s').
Proof.
  destruct (query_without_stacks Demo.parts Demo.points Demo.calibs None (Some Demo.gt)
              (init Demo.volume_opt) (or_introl eq_refl)) as [s' [H1 [_ [_ [H2 H3]]]]].
  exists s'. auto.
Defined.

Lemma filter_pcd_filter_commute_witness :
  exists s1',
    pcd_filter Demo.parts Demo.pcd Demo.evaluating = (Returns tt, s1') /\
    filter Demo.parts Demo.images s1' =
      (Returns tt, snd (pcd_filter Demo.parts Demo.pcd
                          (snd (filter Demo.parts Demo.images Demo.evaluating)))).
Proof.
  apply (filter_pcd_filter_commute Demo.parts Demo.images Demo.pcd Demo.evaluating
           (snd (filter Demo.parts Demo.images Demo.evaluating))).
  - reflexivity.
  - apply demo_pcd_filter_returns. reflexivity.
Defined.

Lemma forward_without_labels_witness :
  exists s' p,
    forward Demo.parts Demo.images Demo.pcd Demo.points Demo.calibs None None
            Demo.evaluating = (Raises (AttributeError "labels"), s') /\
    preds s' = Some p /\
    Py.last_item (intermediate_preds_list s') = Some p.
Proof.
  apply (forward_without_labels Demo.parts Demo.images Demo.pcd Demo.points Demo.calibs
           None Demo.evaluating).
  - reflexivity.
  - reflexivity.
  - exact demo_tree_answers.
  - simpl. discriminate.
  - intros voxels. simpl. discriminate.
Defined.

Lemma eval_forward_error_witness :
  exists res error s' p,
    forward Demo.parts Demo.images Demo.pcd Demo.points Demo.calibs None
            (Some Demo.gt) Demo.evaluating = (Returns (res, error), s') /\
    res = Some p /\ error = error_term Demo.parts p Demo.gt.
Proof.
  destruct demo_forward_returns as [res [error [s' H]]].
  destruct (eval_forward_error Demo.parts Demo.images Demo.pcd Demo.points Demo.calibs
              None (Some Demo.gt) Demo.evaluating s' res error eq_refl H)
    as [p [lab [Hres [_ [Hlab Herr]]]]].
  exists res, error, s', p. split; [exact H|]. split; [exact Hres|].
  rewrite forward_run, (demo_filter_returns Demo.evaluating) in H.
  rewrite demo_pcd_filter_returns in H by reflexivity.
  destruct (query _ _ _ _ _ _) as [[[]|e] s3] eqn:Hq; [|discriminate].
  destruct (query_returns _ _ _ _ _ _ _ Hq) as [ps [q [_ [Es3 _]]]].
  rewrite get_error_run, Es3 in H. fields.
  destruct (ps ++ [q]); [discriminate|].
  injection H as _ _ <-. fields. simpl in Hlab. injection Hlab as <-. exact Herr.
Defined.

Lemma preds_from_last_stacks_witness :
  exists f v,
    Py.last_item (im_feat_list Demo.ready) = Some f /\
    Py.last_item (voxel_feat_list Demo.ready) = Some v /\
    f = Demo.images.
Proof.
  destruct (preds_from_last_stacks Demo.parts Demo.points Demo.calibs None None
              Demo.ready _ (demo_query_returns Demo.points None)) as [f [v [Hf [Hv _]]]].
  - simpl. lia.
  - exists f, v. split; [exact Hf|]. split; [exact Hv|].
    simpl in Hf. injection Hf as <-. reflexivity.
Defined.

Lemma occupancy_row_of_point_set_witness :
  occupancy_row (kdtree_query Demo.parts) (grid_points Demo.evaluating)
    [[Num 1; Num 1; Num 1]; [Num (-1); Num 1; Num 1]] =
  occupancy_row (kdtree_query Demo.parts) (grid_points Demo.evaluating)
    [[Num (-1); Num 1; Num 1]; [Num 1; Num 1; Num 1]; [Num 1; Num 1; Num 1]].
Proof.
  apply (occupancy_row_of_point_set (kdtree_query Demo.parts)
           (grid_points Demo.evaluating)
           [[Num 1; Num 1; Num 1]; [Num (-1); Num 1; Num 1]]
           [[Num (-1); Num 1; Num 1]; [Num 1; Num 1; Num 1]; [Num 1; Num 1; Num 1]]).
  intros p. simpl. tauto.
Defined.

Lemma occupancy_row_count_witness :
  1 <= sum (map Float.value
              [Num 0; Num 0; Num 0; Num 1; Num 0; Num 0; Num 0; Num 1]) <= 2.
Proof.
  destruct (occupancy_row_count (kdtree_query Demo.parts)
              (create_grid_points_from_bounds (-1) 1 2)
              [[Num 1; Num 1; Num 1]; [Num (-1); Num 1; Num 1]]
              [Num 0; Num 0; Num 0; Num 1; Num 0; Num 0; Num 0; Num 1] demo_row)
    as [_ [[_ H2] H1]].
  split; [apply H1; discriminate|]. cbn [length INR] in H2. lra.
Defined.

Lemma preds_from_last_stacks_only_witness :
  exists s2 p,
    query Demo.parts Demo.points Demo.calibs None None Demo.ready = (Returns tt, s2) /\
    preds (snd (query Demo.parts Demo.points Demo.calibs None None
                  (set_im_feat_list [Demo.images; Demo.images] Demo.ready))) = Some p /\
    intermediate_preds_list s2 = [p] /\
    preds s2 = Some p.
Proof.
  apply (preds_from_last_stacks_only Demo.parts Demo.points Demo.calibs None None
           (set_im_feat_list [Demo.images; Demo.images] Demo.ready)
           (snd (query Demo.parts Demo.points Demo.calibs None None
                   (set_im_feat_list [Demo.images; Demo.images] Demo.ready)))
           Demo.images [[[[[Num 0]]]]]).
  - reflexivity.
  - reflexivity.
  - simpl. lia.
  - reflexivity.
Defined.

Lemma query_outside_image_is_zero_witness :
  exists p v,
    preds (snd (query Demo.parts Demo.points Demo.calibs None None Demo.ready)) = Some p /\
    item3 p 0 0 0 = Some v /\ v = Num 0.
Proof.
  destruct (query_outside_image_is_zero Demo.parts Demo.points Demo.calibs None None
              Demo.ready _ eq_refl
              (Tensor.mul_mask
                 (Tensor.float (in_img_of (Tensor.slice1 0 2 Demo.points)))
                 (surface_classifier Demo.parts
                    (classifier_input Demo.parts Demo.points Demo.ready
                       (Demo.images, [[[[[Num 0]]]]]))))
              (or_intror eq_refl))
    as [stacks [Hs H]].
  destruct demo_preds as [p [Ep [H0 _]]].
  exists p, (Num 0).
  assert (Epreds : preds (snd (query Demo.parts Demo.points Demo.calibs None None
                                 Demo.ready)) = Some p).
  { change (Py.last_item (intermediate_preds_list
              (snd (query Demo.parts Demo.points Demo.calibs None None Demo.ready)))
            = Some p).
    rewrite Ep. reflexivity. }
  split; [exact Epreds|]. split; [exact H0|].
  assert (E : Some p = Some (Tensor.mul_mask
                 (Tensor.float (in_img_of (Tensor.slice1 0 2 Demo.points)))
                 (surface_classifier Demo.parts
                    (classifier_input Demo.parts Demo.points Demo.ready
                       (Demo.images, [[[[[Num 0]]]]]))))).
  { rewrite <- Epreds. reflexivity. }
  injection E as E. rewrite E in H0.
  destruct (H 0%nat 0%nat (Num 2) (Num 0) eq_refl eq_refl demo_outside 0%nat (Num 0) H0)
    as [w [_ [_ Hw]]].
  reflexivity.
Defined.
